(** * tilematrix: the [TilePyramid] class of [tilematrix/_tilepyramid.py]

    A shallow embedding of [TilePyramid] and of the properties its
    specification states about it.

    Conventions of the embedding.
    - Python [int] is [Z].  A finite Python [float] (an IEEE 754 binary64
      number) is the rational it denotes ([Q]): comparisons are exact, and
      an arithmetic operation returns the double nearest to the exact
      result ([nearest_double]), or raises [OverflowError] where Python
      does.  NaN and the infinities are outside the model; the places
      where the code could produce one are marked.
    - A method that can raise returns [result A = exn + A]; the statements
      of a method are sequenced with [x <- c ;; k].
    - A generator method returns [generated A]: the list of the values it
      yields when it is consumed, and the exception that ends the
      iteration, if any.
    - Every [raise] of [_tilepyramid.py] raises a [ValueError]; the
      constructors of [exn] name the error kinds of the specification and
      are attached to the [raise] statements in the comments below.
      [ZeroDivisionError] and [OverflowError] are raised by Python's
      arithmetic.
    - Collaborators whose code lives in other modules ([_grid.py],
      [_funcs.py], [_tile.py], [_conf.py], shapely) are either parameters
      of a Section or carry a doc comment that says what they are
      modelled from. *)

From Stdlib Require Import ZArith QArith Qround Qpower Qabs List String Bool Lia Lqa.
From Stdlib Require Import DecimalString.
Import ListNotations.

Local Open Scope string_scope.
Local Open Scope Z_scope.

(** ** Exceptions and results *)

Inductive exn : Type :=
| ConstructionError  (* ValueError raised by __init__ (or by GridDefinition) *)
| InvalidZoom        (* raised by validate_zoom *)
| InvalidArgument    (* ValueError: malformed bounds, unknown on_edge_use *)
| OutOfBounds        (* ValueError: x or y are outside of grid bounds *)
| InvalidGeometry    (* ValueError: no valid geometry *)
| ZeroDivisionError  (* Python division by zero *)
| OverflowError      (* Python: a result too large for a float *)
| TypeError.         (* an operation applied to a value of the wrong type *)

Definition result (A : Type) : Type := (exn + A)%type.

Definition raise {A : Type} (e : exn) : result A := inl e.
Definition ret {A : Type} (a : A) : result A := inr a.

Definition bind {A B : Type} (c : result A) (k : A -> result B) : result B :=
  match c with
  | inl e => inl e
  | inr a => k a
  end.

Notation "x <- c ;; k" := (bind c (fun x => k))
  (at level 61, c at next level, right associativity).

(** What consuming a generator produces: the values yielded, in order, and
    the exception that stopped it ([None] when it ran to its end). *)
Record generated (A : Type) : Type := mkGenerated {
  yielded : list A;
  raised : option exn
}.
Arguments mkGenerated {A} _ _.
Arguments yielded {A} _.
Arguments raised {A} _.

(** A generator body that raises before its first [yield]. *)
Definition gen_raise {A : Type} (e : exn) : generated A := mkGenerated [] (Some e).
(** A generator body that returns without yielding. *)
Definition gen_empty {A : Type} : generated A := mkGenerated [] None.

(** A statement of a generator body that may raise, followed by the rest
    of the body. *)
Definition gen_bind {A B : Type} (c : result A) (k : A -> generated B) : generated B :=
  match c with
  | inl e => gen_raise e
  | inr a => k a
  end.

Notation "x <~ c ;; k" := (gen_bind c (fun x => k))
  (at level 61, c at next level, right associativity).

(** [for a in l: yield f(a)]: one value per element, in order; the first
    call that raises ends the iteration. *)
Fixpoint yield_each {A B : Type} (f : A -> result B) (l : list A) : generated B :=
  match l with
  | [] => gen_empty
  | a :: rest =>
      match f a with
      | inl e => gen_raise e
      | inr b =>
          let g := yield_each f rest in
          mkGenerated (b :: yielded g) (raised g)
      end
  end.

(** ** Python values

    Only the arguments whose dynamic type the code inspects ([zoom],
    [bounds]) are modelled as untyped Python values. *)

#[warnings="-register-all"]
Inductive pyval : Type :=
| PyNone
| PyInt (n : Z)
| PyFloat (q : Q)
| PyStr (s : string)
| PyList (items : list pyval)
| PyTuple (items : list pyval)
| PyBounds (l b r t : pyval).  (* a Bounds instance: a 4-tuple subclass *)

(** [isinstance(v, tuple)] *)
Definition isinstance_tuple (v : pyval) : bool :=
  match v with
  | PyTuple _ | PyBounds _ _ _ _ => true
  | _ => false
  end.

(** [isinstance(v, Bounds)] *)
Definition isinstance_Bounds (v : pyval) : bool :=
  match v with
  | PyBounds _ _ _ _ => true
  | _ => false
  end.

(** [len(v)]; the code calls it on tuples only. *)
Definition len (v : pyval) : result Z :=
  match v with
  | PyTuple items | PyList items => ret (Z.of_nat (List.length items))
  | PyBounds _ _ _ _ => ret 4
  | _ => raise TypeError
  end.

(** Modelled from the spec: the class [Bounds] of [_types.py] is not among
    the sources; the specification describes it as an immutable
    [(left, bottom, right, top)] value "constructed from a 4-tuple,
    validated for arity".  [Bounds_new items] is [Bounds( *items)]. *)
Definition Bounds_new (items : list pyval) : result pyval :=
  match items with
  | [l; b; r; t] => ret (PyBounds l b r t)
  | _ => raise TypeError
  end.

(** The items of a tuple, for [Bounds( *bounds)]. *)
Definition tuple_items (v : pyval) : list pyval :=
  match v with
  | PyTuple items | PyList items => items
  | PyBounds l b r t => [l; b; r; t]
  | _ => []
  end.

(** ** Numbers *)

Definition Qltb (a b : Q) : bool := negb (Qle_bool b a).

(** Rounding to the nearest integer, ties to the even neighbour. *)
Definition round_half_even (q : Q) : Z :=
  let f := Qfloor q in
  match Qcompare (q - inject_Z f) (1 # 2) with
  | Lt => f
  | Gt => f + 1
  | Eq => if Z.even f then f else f + 1
  end.

(** *** Binary64

    A double has a significand of 53 bits and an exponent between -1022
    and 1023; below 2^-1022 the doubles are the multiples of 2^-1074. *)

Definition pow2 (e : Z) : Q := Qpower 2 e.

(** The exponent [e] with [2^e <= |q| < 2^(e+1)], for [q] other than 0. *)
Definition binade (q : Q) : Z :=
  let e := Z.log2 (Z.abs (Qnum q)) - Z.log2 (Zpos (Qden q)) in
  if Qle_bool (pow2 e) (Qabs q) then e else e - 1.

(** The exponent of the spacing of the doubles around [q]. *)
Definition ulp_exponent (q : Q) : Z := Z.max (binade q) (-1022) - 52.

(** The multiple of that spacing nearest to [q], ties to the even
    significand: the double nearest to [q] when there is one. *)
Definition nearest_double (q : Q) : Q :=
  let r := Qred q in
  let u := pow2 (ulp_exponent r) in
  Qred (inject_Z (round_half_even (r / u)) * u).

(** Rounding to a double: [None] when the result is beyond the largest
    double, that is 2^1024 or more in magnitude. *)
Definition to_double (q : Q) : option Q :=
  let d := nearest_double q in
  if Qle_bool (pow2 1024) (Qabs d) then None else Some d.

(** *** Python's arithmetic on ints and floats *)

(** [float(n)] for an int, which is also what a float operation does to an
    int operand: "int too large to convert to float". *)
Definition float_of_int (n : Z) : result Q :=
  match to_double (inject_Z n) with
  | Some d => ret d
  | None => raise OverflowError
  end.

(** [a / b] for two ints: the double nearest to the quotient, "integer
    division result too large for a float" when there is none. *)
Definition int_truediv (a b : Z) : result Q :=
  if b =? 0 then raise ZeroDivisionError
  else match to_double (inject_Z a / inject_Z b) with
       | Some d => ret d
       | None => raise OverflowError
       end.

(** [x / n] for a float and an int.  The quotient of a double by a double
    of magnitude 1 or more is within the range of the doubles. *)
Definition float_div_int (x : Q) (n : Z) : result Q :=
  y <- float_of_int n ;;
  if Qeq_bool y 0 then raise ZeroDivisionError
  else ret (nearest_double (x / y)).

(** [a - b] for two floats.  Where Python returns an infinity (a
    difference of 2^1024 or more in magnitude) the model keeps the rounded
    difference: statements that depend on the value exclude that case. *)
Definition float_sub (a b : Q) : Q := nearest_double (a - b).

(** The multiple of 10^-ndigits nearest to [q], ties to the even one. *)
Definition decimal_round (q : Q) (ndigits : Z) : Q :=
  (inject_Z (round_half_even (q * Qpower 10 ndigits)) / Qpower 10 ndigits)%Q.

(** [round(x, ndigits)] on a float, after CPython's [float.__round__]:
    beyond 323 decimals every double rounds to itself, below -308 to zero,
    and in between the result is the double nearest to the decimal
    rounding of [x].  The OverflowError of a rounding that leaves the
    range of the doubles needs a negative [ndigits] and is left out. *)
Definition py_round (x : Q) (ndigits : Z) : Q :=
  if 323 <? ndigits then x
  else if ndigits <? -308 then 0%Q
  else nearest_double (decimal_round x ndigits).

(** ['%s' % n] for an int. *)
Definition str_int (n : Z) : string := NilZero.string_of_int (Z.to_int n).

(** ** The data model

    Modelled from the spec: [Shape], [Bounds] ([_types.py]) and
    [GridDefinition] ([_grid.py]) are not among the sources.  Section 3 of
    the specification gives their fields; these are the ones
    [TilePyramid] reads. *)

Record Shape : Type := mkShape {
  shape_height : Z;
  shape_width : Z
}.

Record Bounds : Type := mkBounds {
  b_left : Q;
  b_bottom : Q;
  b_right : Q;
  b_top : Q
}.

Record GridDefinition : Type := mkGridDefinition {
  g_crs : string;
  g_bounds : Bounds;
  g_shape : Shape;
  g_is_global : bool;
  g_type : string
}.

(** The attributes [__init__] sets on a [TilePyramid]. *)
Record TilePyramid : Type := mkTilePyramid {
  tp_grid : GridDefinition;
  tp_bounds : Bounds;
  tp_left : Q;
  tp_bottom : Q;
  tp_right : Q;
  tp_top : Q;
  tp_crs : string;
  tp_is_global : bool;
  tp_metatiling : Z;
  tp_tile_size : Z;
  tp_metatile_size : Z;
  tp_x_size : Q;
  tp_y_size : Q
}.

(** Modelled from the spec: the class [Tile] of [_tile.py] is not among the
    sources; a tile is [{pyramid, zoom, row, col}]. *)
Record Tile : Type := mkTile {
  tile_tp : TilePyramid;
  tile_zoom : Z;
  tile_row : Z;
  tile_col : Z
}.

(** The part of a shapely geometry that [tiles_from_geom] reads. *)
Record Point : Type := mkPoint {
  pt_x : Q;
  pt_y : Q
}.

Record Geometry : Type := mkGeometry {
  is_empty : bool;
  is_valid : bool;
  geom_type : string;
  geom_xy : Point;          (* [.x], [.y]: read for a Point only *)
  geom_points : list Point; (* iteration: done for a MultiPoint only *)
  geom_bounds : pyval       (* [.bounds] *)
}.

(** Modelled from the spec: [validate_zoom] of [_funcs.py] is not among the
    sources.  "Fails with InvalidZoom if zoom is negative or non-integer."
    The model returns the integer it has checked, so that the caller can
    compute with it. *)
Definition validate_zoom (zoom : pyval) : result Z :=
  match zoom with
  | PyInt z => if z <? 0 then raise InvalidZoom else ret z
  | _ => raise InvalidZoom
  end.

(** A zoom that [validate_zoom] accepts. *)
Definition valid_zoom (zoom : pyval) : Prop :=
  exists z, zoom = PyInt z /\ 0 <= z.

(** ** TilePyramid *)

Section TilePyramid.

(** [ROUND] of [_conf.py]. *)
Variable ROUND : Z.

(** Whatever [GridDefinition(...)] accepts (a name, a dictionary, a
    [GridDefinition]), and the constructor itself, which may raise. *)
Variable GridArg : Type.
Variable GridDefinition_new : GridArg -> result GridDefinition.

(** [metatiling not in (1, 2, 4, 8, 16)] *)
Definition metatiling_allowed (metatiling : Z) : bool :=
  existsb (Z.eqb metatiling) [1; 2; 4; 8; 16].

(** [TilePyramid.__init__(self, grid=None, tile_size=256, metatiling=1)].
    [tile_size] and [metatiling] are ints, as the specification types them;
    the guard compares with [==], so that it also lets through a float or
    a bool equal to one of the five values, and [tile_size] is not checked
    at all: such arguments are outside the int typing of this model.  The
    bounds are floats, [right - left] is a float subtraction, and [float]
    of the float that [round] returns is that float. *)
Definition TilePyramid_init (grid : option GridArg) (tile_size metatiling : Z)
  : result TilePyramid :=
  match grid with
  | None => raise ConstructionError      (* "grid definition required" *)
  | Some grid_arg =>
      if negb (metatiling_allowed metatiling)
      then raise ConstructionError       (* "metatling must be one of ..." *)
      else
        grid <- GridDefinition_new grid_arg ;;
        let bounds := g_bounds grid in
        let left := b_left bounds in
        let bottom := b_bottom bounds in
        let right := b_right bounds in
        let top := b_top bounds in
        ret {| tp_grid := grid;
               tp_bounds := bounds;
               tp_left := left;
               tp_bottom := bottom;
               tp_right := right;
               tp_top := top;
               tp_crs := g_crs grid;
               tp_is_global := g_is_global grid;
               tp_metatiling := metatiling;
               tp_tile_size := tile_size;
               tp_metatile_size := tile_size * metatiling;
               tp_x_size := py_round (float_sub right left) ROUND;
               tp_y_size := py_round (float_sub top bottom) ROUND |}
  end.

(** [matrix_width(self, zoom)].  [width * 2**zoom] is an int,
    [... / self.metatiling] the true division of two ints, a float, and
    [math.ceil] of a float is an int again. *)
Definition matrix_width (tp : TilePyramid) (zoom : pyval) : result Z :=
  z <- validate_zoom zoom ;;
  q <- int_truediv (shape_width (g_shape (tp_grid tp)) * 2 ^ z)
                   (tp_metatiling tp) ;;
  let width := Qceiling q in
  ret (if width <? 1 then 1 else width).

(** [matrix_height(self, zoom)] *)
Definition matrix_height (tp : TilePyramid) (zoom : pyval) : result Z :=
  z <- validate_zoom zoom ;;
  q <- int_truediv (shape_height (g_shape (tp_grid tp)) * 2 ^ z)
                   (tp_metatiling tp) ;;
  let height := Qceiling q in
  ret (if height <? 1 then 1 else height).

(** [tile_x_size(self, zoom)] *)
Definition tile_x_size (tp : TilePyramid) (zoom : pyval) : result Q :=
  _ <- validate_zoom zoom ;;
  mw <- matrix_width tp zoom ;;
  q <- float_div_int (tp_x_size tp) mw ;;
  ret (py_round q ROUND).

(** [tile_y_size(self, zoom)] *)
Definition tile_y_size (tp : TilePyramid) (zoom : pyval) : result Q :=
  _ <- validate_zoom zoom ;;
  mh <- matrix_height tp zoom ;;
  q <- float_div_int (tp_y_size tp) mh ;;
  ret (py_round q ROUND).

(** [tile_width(self, zoom)] *)
Definition tile_width (tp : TilePyramid) (zoom : pyval) : result Z :=
  z <- validate_zoom zoom ;;
  let matrix_pixel := 2 ^ z * tp_tile_size tp * shape_width (g_shape (tp_grid tp)) in
  let tile_pixel := tp_tile_size tp * tp_metatiling tp in
  ret (if tile_pixel >? matrix_pixel then matrix_pixel else tile_pixel).

(** [tile_height(self, zoom)] *)
Definition tile_height (tp : TilePyramid) (zoom : pyval) : result Z :=
  z <- validate_zoom zoom ;;
  let matrix_pixel := 2 ^ z * tp_tile_size tp * shape_height (g_shape (tp_grid tp)) in
  let tile_pixel := tp_tile_size tp * tp_metatiling tp in
  ret (if tile_pixel >? matrix_pixel then matrix_pixel else tile_pixel).

(** [pixel_x_size(self, zoom)] *)
Definition pixel_x_size (tp : TilePyramid) (zoom : pyval) : result Q :=
  _ <- validate_zoom zoom ;;
  txs <- tile_x_size tp zoom ;;
  tw <- tile_width tp zoom ;;
  q <- float_div_int txs tw ;;
  ret (py_round q ROUND).

(** [pixel_y_size(self, zoom)] *)
Definition pixel_y_size (tp : TilePyramid) (zoom : pyval) : result Q :=
  _ <- validate_zoom zoom ;;
  tys <- tile_y_size tp zoom ;;
  th <- tile_height tp zoom ;;
  q <- float_div_int tys th ;;
  ret (py_round q ROUND).

(** *** Bounds and geometry queries *)

(** The two sweeps of [_funcs.py] and the point resolution it implements;
    [tile_from_xy] and [tiles_from_bounds] delegate to them. *)
Variable _global_tiles_from_bounds : TilePyramid -> pyval -> pyval -> generated Tile.
Variable _tiles_from_cleaned_bounds : TilePyramid -> pyval -> pyval -> generated Tile.
Variable _tile_from_xy : TilePyramid -> Q -> Q -> pyval -> string -> result Tile.

(** [clip_geometry_to_srs_bounds(geometry, self)], and
    [prep(g).intersects(tile.bbox())]. *)
Variable clip_geometry_to_srs_bounds : Geometry -> TilePyramid -> Geometry.
Variable prepared_intersects_bbox : Geometry -> Tile -> bool.

(** [tiles_from_bounds(self, bounds, zoom)], a generator. *)
Definition tiles_from_bounds (tp : TilePyramid) (bounds zoom : pyval) : generated Tile :=
  _ <~ validate_zoom zoom ;;
  malformed <~ (if negb (isinstance_tuple bounds) then ret true
                else n <- len bounds ;; ret (negb (n =? 4))) ;;
  if (malformed : bool) then gen_raise InvalidArgument
  else
    bounds <~ (if negb (isinstance_Bounds bounds)
               then Bounds_new (tuple_items bounds)
               else ret bounds) ;;
    if tp_is_global tp
    then _global_tiles_from_bounds tp bounds zoom
    else _tiles_from_cleaned_bounds tp bounds zoom.

(** [tiles_from_bbox(self, geometry, zoom)]: not a generator itself; it
    validates the zoom when called and returns the generator of
    [tiles_from_bounds]. *)
Definition tiles_from_bbox (tp : TilePyramid) (geometry : Geometry) (zoom : pyval)
  : result (generated Tile) :=
  _ <- validate_zoom zoom ;;
  ret (tiles_from_bounds tp (geom_bounds geometry) zoom).

(** [on_edge_use not in ["lb", "rb", "rt", "lt"]] *)
Definition on_edge_use_allowed (on_edge_use : string) : bool :=
  existsb (String.eqb on_edge_use) ["lb"; "rb"; "rt"; "lt"].

(** [tile_from_xy(self, x, y, zoom, on_edge_use="rb")] *)
Definition tile_from_xy (tp : TilePyramid) (x y : Q) (zoom : pyval)
    (on_edge_use : string) : result Tile :=
  _ <- validate_zoom zoom ;;
  if Qltb x (tp_left tp) || Qltb (tp_right tp) x
     || Qltb y (tp_bottom tp) || Qltb (tp_top tp) y
  then raise OutOfBounds
  else if negb (on_edge_use_allowed on_edge_use)
  then raise InvalidArgument
  else _tile_from_xy tp x y zoom on_edge_use.

(** The kinds that take the clip, prepare and filter path. *)
Definition sweep_kinds : list string :=
  ["LineString"; "MultiLineString"; "Polygon"; "MultiPolygon"; "GeometryCollection"].

(** [tiles_from_geom(self, geometry, zoom)], a generator. *)
Definition tiles_from_geom (tp : TilePyramid) (geometry : Geometry) (zoom : pyval)
  : generated Tile :=
  _ <~ validate_zoom zoom ;;
  if is_empty geometry then gen_empty
  else if negb (is_valid geometry) then gen_raise InvalidGeometry
  else if String.eqb (geom_type geometry) "Point" then
    tile <~ tile_from_xy tp (pt_x (geom_xy geometry)) (pt_y (geom_xy geometry)) zoom "rb" ;;
    mkGenerated [tile] None
  else if String.eqb (geom_type geometry) "MultiPoint" then
    yield_each (fun point => tile_from_xy tp (pt_x point) (pt_y point) zoom "rb")
               (geom_points geometry)
  else if existsb (String.eqb (geom_type geometry)) sweep_kinds then
    let prepared_geometry := clip_geometry_to_srs_bounds geometry tp in
    tiles <~ tiles_from_bbox tp geometry zoom ;;
    mkGenerated
      (filter (fun tile => prepared_intersects_bbox prepared_geometry tile) (yielded tiles))
      (raised tiles)
  else gen_empty.

(** *** Configuration dictionaries, equality, printing and hashing *)

(** [GridDefinition.to_dict], [GridDefinition.__eq__], [str(grid)],
    [repr(grid)] of [_grid.py], and the builtin [hash] on strings. *)
Variable grid_to_dict : GridDefinition -> GridArg.
Variable grid_eq : GridDefinition -> GridDefinition -> bool.
Variable grid_str : GridDefinition -> string.
Variable grid_repr : GridDefinition -> string.
Variable str_hash : string -> Z.

(** A dictionary over the keyword names of [__init__]; a key that is
    absent is [None]. *)
Record config_dict : Type := mkConfig {
  cfg_grid : option GridArg;
  cfg_metatiling : option Z;
  cfg_tile_size : option Z
}.

(** [to_dict(self)] *)
Definition to_dict (tp : TilePyramid) : config_dict :=
  {| cfg_grid := Some (grid_to_dict (tp_grid tp));
     cfg_metatiling := Some (tp_metatiling tp);
     cfg_tile_size := Some (tp_tile_size tp) |}.

(** [from_dict(config_dict)]: [TilePyramid( **config_dict)], the defaults of
    [__init__] filling the absent keys. *)
Definition from_dict (config : config_dict) : result TilePyramid :=
  TilePyramid_init
    (cfg_grid config)
    (match cfg_tile_size config with Some n => n | None => 256 end)
    (match cfg_metatiling config with Some n => n | None => 1 end).

(** The right-hand side of a comparison: a [TilePyramid] or anything else. *)
Inductive pyobj : Type :=
| ObjTilePyramid (tp : TilePyramid)
| ObjOther.

(** [__eq__(self, other)], on int [tile_size] and [metatiling]. *)
Definition TilePyramid_eq (self : TilePyramid) (other : pyobj) : bool :=
  match other with
  | ObjTilePyramid other =>
      grid_eq (tp_grid self) (tp_grid other)
      && (tp_tile_size self =? tp_tile_size other)
      && (tp_metatiling self =? tp_metatiling other)
  | ObjOther => false
  end.

(** [__ne__(self, other)] *)
Definition TilePyramid_ne (self : TilePyramid) (other : pyobj) : bool :=
  negb (TilePyramid_eq self other).

(** [__repr__(self)].  ['%s'] prints an int in decimal; a [tile_size] or
    [metatiling] that is no int (2.0, True) prints otherwise, although it
    compares equal to the int: that case is outside the int typing of this
    model. *)
Definition TilePyramid_repr (tp : TilePyramid) : string :=
  ("TilePyramid(" ++ grid_str (tp_grid tp)
   ++ ", tile_size=" ++ str_int (tp_tile_size tp)
   ++ ", metatiling=" ++ str_int (tp_metatiling tp) ++ ")")%string.

(** [__hash__(self)] *)
Definition TilePyramid_hash (tp : TilePyramid) : Z :=
  str_hash (TilePyramid_repr tp ++ grid_repr (tp_grid tp))%string.

End TilePyramid.

Arguments TilePyramid_init ROUND {GridArg} GridDefinition_new grid tile_size metatiling.
Arguments mkConfig {GridArg} _ _ _.
Arguments cfg_grid {GridArg} _.
Arguments cfg_metatiling {GridArg} _.
Arguments cfg_tile_size {GridArg} _.
Arguments to_dict {GridArg} grid_to_dict tp.
Arguments from_dict ROUND {GridArg} GridDefinition_new config.

(** ** The specification's formulas, in its own words *)

(** "max(1, ceil(shape.width_or_height * 2^zoom / metatiling))" *)
Definition spec_matrix_size (cells zoom metatiling : Z) : Z :=
  Z.max 1 (Qceiling (inject_Z (cells * 2 ^ zoom) / inject_Z metatiling)).

(** The float quotient of [matrix_width] is the exact one: the cell count
    has a significand of at most 53 bits, and the quotient is below
    2^1024. *)
Definition fits_double (cells zoom metatiling : Z) : Prop :=
  Z.abs cells < 2 ^ 53 /\ Z.abs cells * 2 ^ zoom < 2 ^ 1024 * metatiling.

(** The difference of two floats is within the range of the doubles. *)
Definition finite_difference (a b : Q) : Prop :=
  exists d, to_double (a - b) = Some d.

(** "min(metatile_size, 2^zoom * tile_size * shape.width_or_height)" *)
Definition spec_tile_pixels (metatile_size tile_size cells zoom : Z) : Z :=
  Z.min metatile_size (2 ^ zoom * tile_size * cells).

(** "bounds is exactly 4 numeric values": a tuple of four numbers. *)
Definition is_number (v : pyval) : bool :=
  match v with
  | PyInt _ | PyFloat _ => true
  | _ => false
  end.

Definition four_numbers (bounds : pyval) : bool :=
  match bounds with
  | PyTuple [l; b; r; t] | PyBounds l b r t => forallb is_number [l; b; r; t]
  | _ => false
  end.

(** The point lies outside [left, right] x [bottom, top]. *)
Definition outside (tp : TilePyramid) (x y : Q) : Prop :=
  (x < tp_left tp \/ tp_right tp < x \/ y < tp_bottom tp \/ tp_top tp < y)%Q.

(** The kinds [tiles_from_geom] knows. *)
Definition known_kinds : list string :=
  ["Point"; "MultiPoint"; "LineString"; "MultiLineString"; "Polygon";
   "MultiPolygon"; "GeometryCollection"].

(** What shapely (GEOS) guarantees of the two flags: an empty geometry is
    reported valid. *)
Definition empty_is_valid (geometry : Geometry) : Prop :=
  is_empty geometry = true -> is_valid geometry = true.

(** ** Concrete collaborators and inputs, to run the model on *)

(** A [GridDefinition] constructor that accepts a finished definition as it
    is (the specification: "supplied as a finished value"). *)
Definition finished_grid (g : GridDefinition) : result GridDefinition := ret g.

(** The irregular grid of [test_irregular_grids]: 161 x 315 base tiles of
    256 pixels, 10 map units per pixel. *)
Definition irregular_grid : GridDefinition :=
  {| g_crs := "EPSG:31259";
     g_bounds := mkBounds 141920 89840 948320 502000;
     g_shape := mkShape 161 315;
     g_is_global := false;
     g_type := "custom" |}.

(** [TilePyramid(grid_definition_irregular, metatiling=metatiling)] *)
Definition irregular_pyramid (ROUND metatiling : Z) : result TilePyramid :=
  TilePyramid_init ROUND finished_grid (Some irregular_grid) 256 metatiling.

(** "Conformal (square source pixels)": x_size / shape.width equals
    y_size / shape.height. *)
Definition conformal (tp : TilePyramid) : Prop :=
  (tp_x_size tp / inject_Z (shape_width (g_shape (tp_grid tp)))
   == tp_y_size tp / inject_Z (shape_height (g_shape (tp_grid tp))))%Q.

(** A square grid of one base tile over [0, 10] x [0, 10]. *)
Definition unit_grid : GridDefinition :=
  {| g_crs := "EPSG:4326";
     g_bounds := mkBounds 0 0 10 10;
     g_shape := mkShape 1 1;
     g_is_global := false;
     g_type := "custom" |}.

(** The pyramid [TilePyramid(unit_grid)] with [ROUND = 20]. *)
Definition unit_pyramid : TilePyramid :=
  {| tp_grid := unit_grid;
     tp_bounds := g_bounds unit_grid;
     tp_left := 0;
     tp_bottom := 0;
     tp_right := 10;
     tp_top := 10;
     tp_crs := "EPSG:4326";
     tp_is_global := false;
     tp_metatiling := 1;
     tp_tile_size := 256;
     tp_metatile_size := 256;
     tp_x_size := py_round (float_sub 10 0) 20;
     tp_y_size := py_round (float_sub 10 0) 20 |}.

(** A grid of one row of 2^53 + 1 base tiles, the first whole number
    that is not a double. *)
Definition wide_grid : GridDefinition :=
  {| g_crs := "EPSG:4326";
     g_bounds := mkBounds 0 0 10 10;
     g_shape := mkShape 1 (2 ^ 53 + 1);
     g_is_global := false;
     g_type := "custom" |}.

(** Stand-ins for the collaborators of [_funcs.py] and shapely on
    [unit_pyramid], whose matrix at zoom 0 is the single tile (0, 0, 0). *)
Definition single_tile (tp : TilePyramid) (x y : Q) (zoom : pyval)
    (on_edge_use : string) : result Tile :=
  z <- validate_zoom zoom ;; ret (mkTile tp z 0 0).

Definition single_tile_sweep (tp : TilePyramid) (bounds zoom : pyval) : generated Tile :=
  z <~ validate_zoom zoom ;; mkGenerated [mkTile tp z 0 0] None.

Definition unclipped (geometry : Geometry) (tp : TilePyramid) : Geometry := geometry.

Definition intersects_all (geometry : Geometry) (tile : Tile) : bool := true.

(** A geometry of the given kind over the given points. *)
Definition geometry_of (kind : string) (points : list Point) : Geometry :=
  {| is_empty := match points with [] => true | _ => false end;
     is_valid := true;
     geom_type := kind;
     geom_xy := match points with p :: _ => p | [] => mkPoint 0 0 end;
     geom_points := points;
     geom_bounds := PyTuple [] |}.

(** A self-intersecting polygon: not empty, not valid. *)
Definition bowtie : Geometry :=
  {| is_empty := false;
     is_valid := false;
     geom_type := "Polygon";
     geom_xy := mkPoint 0 0;
     geom_points := [mkPoint 0 0; mkPoint 5 5; mkPoint 5 0; mkPoint 0 5; mkPoint 0 0];
     geom_bounds := PyTuple [PyFloat 0; PyFloat 0; PyFloat 5; PyFloat 5] |}.

(** A valid square polygon inside [unit_grid]. *)
Definition square : Geometry :=
  {| is_empty := false;
     is_valid := true;
     geom_type := "Polygon";
     geom_xy := mkPoint 1 1;
     geom_points := [mkPoint 1 1; mkPoint 5 1; mkPoint 5 5; mkPoint 1 5; mkPoint 1 1];
     geom_bounds := PyTuple [PyFloat 1; PyFloat 1; PyFloat 5; PyFloat 5] |}.

(** Stand-ins for [GridDefinition.to_dict], [__eq__] and [__str__]: the
    dictionary of a grid holds its fields, equality compares them, and a
    grid prints as its type and CRS. *)
Definition grid_fields (g : GridDefinition) : GridDefinition := g.

Definition same_bounds (a b : Bounds) : bool :=
  Qeq_bool (b_left a) (b_left b) && Qeq_bool (b_bottom a) (b_bottom b)
  && Qeq_bool (b_right a) (b_right b) && Qeq_bool (b_top a) (b_top b).

Definition same_grid (a b : GridDefinition) : bool :=
  String.eqb (g_crs a) (g_crs b)
  && same_bounds (g_bounds a) (g_bounds b)
  && (shape_height (g_shape a) =? shape_height (g_shape b))
  && (shape_width (g_shape a) =? shape_width (g_shape b))
  && Bool.eqb (g_is_global a) (g_is_global b)
  && String.eqb (g_type a) (g_type b).

Definition grid_label (g : GridDefinition) : string :=
  (g_type g ++ ":" ++ g_crs g)%string.

(** ** Properties *)

Lemma Qltb_lt (a b : Q) : Qltb a b = true <-> (a < b)%Q.
Proof.
  unfold Qltb. rewrite negb_true_iff. split; intro H.
  - apply Qnot_le_lt. intro Hle. apply Qle_bool_iff in Hle. congruence.
  - destruct (Qle_bool b a) eqn:E; [|reflexivity].
    apply Qle_bool_iff in E. exfalso. exact (Qlt_not_le _ _ H E).
Qed.

Lemma metatiling_allowed_iff (m : Z) :
  metatiling_allowed m = true <-> m = 1 \/ m = 2 \/ m = 4 \/ m = 8 \/ m = 16.
Proof.
  unfold metatiling_allowed. cbn [existsb]. rewrite !orb_true_iff, !Z.eqb_eq.
  intuition congruence.
Qed.

Lemma validate_zoom_valid (zoom : pyval) :
  valid_zoom zoom -> exists z, zoom = PyInt z /\ 0 <= z /\ validate_zoom zoom = inr z.
Proof.
  intros (z & -> & Hz). exists z. repeat split; trivial.
  cbn. destruct (Z.ltb_spec z 0); [lia | reflexivity].
Qed.

Lemma validate_zoom_invalid (zoom : pyval) :
  ~ valid_zoom zoom -> validate_zoom zoom = inl InvalidZoom.
Proof.
  intros H. destruct zoom; try reflexivity. cbn.
  destruct (Z.ltb_spec n 0); [reflexivity|].
  exfalso. apply H. exists n. split; [reflexivity | assumption].
Qed.

(** The zooms that are not valid are the negative integers and the values
    that are no integers. *)
Lemma invalid_zoom_cases (zoom : pyval) :
  ~ valid_zoom zoom <->
  (exists z, zoom = PyInt z /\ z < 0) \/ (forall z, zoom <> PyInt z).
Proof.
  split.
  - intros H. destruct zoom; try (right; intros z' E; discriminate E).
    left. exists n. split; [reflexivity|].
    destruct (Z.ltb_spec n 0); [assumption|].
    exfalso. apply H. exists n. split; [reflexivity | assumption].
  - intros [(z & -> & Hz) | Hne] (z' & E & Hz').
    + injection E as <-. lia.
    + exact (Hne z' E).
Qed.

(** *** Rounding to the nearest integer and to the nearest double *)

Lemma round_half_even_error (q : Q) :
  (q - (1 # 2) <= inject_Z (round_half_even q) <= q + (1 # 2))%Q.
Proof.
  unfold round_half_even.
  pose proof (Qfloor_le q) as Hlo.
  pose proof (Qlt_floor q) as Hhi.
  rewrite inject_Z_plus in Hhi. change (inject_Z 1) with 1%Q in Hhi.
  set (f := Qfloor q) in *.
  destruct (Qcompare_spec (q - inject_Z f) (1 # 2)) as [E|E|E].
  - destruct (Z.even f);
      [|rewrite inject_Z_plus; change (inject_Z 1) with 1%Q]; lra.
  - lra.
  - rewrite inject_Z_plus. change (inject_Z 1) with 1%Q. lra.
Qed.

Lemma round_half_even_comp (x y : Q) :
  (x == y)%Q -> round_half_even x = round_half_even y.
Proof.
  intros E. unfold round_half_even. rewrite (Qfloor_comp _ _ E).
  assert (C : Qcompare (x - inject_Z (Qfloor y)) (1 # 2)
              = Qcompare (y - inject_Z (Qfloor y)) (1 # 2))
    by (apply Qcompare_comp; [rewrite E|]; reflexivity).
  cbv zeta. rewrite C. reflexivity.
Qed.

Lemma round_half_even_Z (n : Z) : round_half_even (inject_Z n) = n.
Proof.
  unfold round_half_even. rewrite Qfloor_Z. cbv zeta.
  destruct (Qcompare_spec (inject_Z n - inject_Z n) (1 # 2)) as [C|C|C];
    [lra | reflexivity | lra].
Qed.

Lemma round_half_even_zero (q : Q) : (q == 0)%Q -> round_half_even q = 0.
Proof.
  intros E. rewrite (round_half_even_comp q (inject_Z 0) E).
  apply round_half_even_Z.
Qed.

Lemma pow2_pos (e : Z) : (0 < pow2 e)%Q.
Proof. apply Qpower_0_lt. reflexivity. Qed.

Lemma pow2_add (a b : Z) : (pow2 (a + b) == pow2 a * pow2 b)%Q.
Proof. apply Qpower_plus. discriminate. Qed.

Lemma pow2_sub (a b : Z) : (pow2 (a - b) == pow2 a / pow2 b)%Q.
Proof. apply Qpower_minus. discriminate. Qed.

Lemma pow2_Z (e : Z) : 0 <= e -> (pow2 e == inject_Z (2 ^ e))%Q.
Proof. intros H. symmetry. apply (Zpower_Qpower 2 e H). Qed.

Lemma pow2_le (a b : Z) : a <= b -> (pow2 a <= pow2 b)%Q.
Proof. intros H. apply Qpower_le_compat_l; [exact H | discriminate]. Qed.

Lemma pow2_lt_inv (a b : Z) : (pow2 a < pow2 b)%Q -> a < b.
Proof. intros H. apply (Qpower_lt_compat_l_inv 2); [exact H | reflexivity]. Qed.

Lemma pow2_succ (a : Z) : (pow2 (a + 1) == 2 * pow2 a)%Q.
Proof. rewrite pow2_add. change (pow2 1) with 2%Q. ring. Qed.

(** [binade] is the exponent of the power of two at or below [|q|]. *)
Lemma binade_spec (q : Q) :
  ~ (q == 0)%Q -> (pow2 (binade q) <= Qabs q)%Q /\ (Qabs q < pow2 (binade q + 1))%Q.
Proof.
  destruct q as [n d]. intros Hq.
  assert (Hn : 0 < Z.abs n).
  { destruct (Z.eq_dec n 0) as [-> | Hn]; [exfalso; apply Hq; reflexivity | lia]. }
  unfold binade. cbn [Qnum Qden].
  set (a := Z.log2 (Z.abs n)). set (b := Z.log2 (Z.pos d)).
  destruct (Z.log2_spec (Z.abs n) Hn) as [Ha1 Ha2]. fold a in Ha1, Ha2.
  destruct (Z.log2_spec (Z.pos d) eq_refl) as [Hb1 Hb2]. fold b in Hb1, Hb2.
  assert (Ha0 : 0 <= a) by apply Z.log2_nonneg.
  assert (Hb0 : 0 <= b) by apply Z.log2_nonneg.
  change (Z.succ a) with (a + 1) in Ha2. change (Z.succ b) with (b + 1) in Hb2.
  assert (Habs : (Qabs (n # d) == inject_Z (Z.abs n) / inject_Z (Z.pos d))%Q).
  { unfold Qabs. apply Qmake_Qdiv. }
  set (N := inject_Z (Z.abs n)) in *. set (D := inject_Z (Z.pos d)) in *.
  assert (HN1 : (pow2 a <= N)%Q)
    by (rewrite pow2_Z by lia; unfold N; rewrite <- Zle_Qle; exact Ha1).
  assert (HN2 : (N < 2 * pow2 a)%Q).
  { rewrite <- pow2_succ. rewrite pow2_Z by lia. unfold N. rewrite <- Zlt_Qlt. exact Ha2. }
  assert (HD1 : (pow2 b <= D)%Q)
    by (rewrite pow2_Z by lia; unfold D; rewrite <- Zle_Qle; exact Hb1).
  assert (HD2 : (D < 2 * pow2 b)%Q).
  { rewrite <- pow2_succ. rewrite pow2_Z by lia. unfold D. rewrite <- Zlt_Qlt. exact Hb2. }
  pose proof (pow2_pos a) as HA. pose proof (pow2_pos b) as HB.
  assert (HD : (0 < D)%Q) by lra.
  assert (Hup : (N / D < 2 * (pow2 a / pow2 b))%Q).
  { apply Qlt_shift_div_r; [exact HD |].
    assert (E : (2 * (pow2 a / pow2 b) * D == 2 * pow2 a * D / pow2 b)%Q) by (field; lra).
    rewrite E. apply Qlt_shift_div_l; [exact HB |]. nra. }
  assert (Hlo : (pow2 a / pow2 b / 2 <= N / D)%Q).
  { apply Qle_shift_div_l; [exact HD |].
    assert (E : (pow2 a / pow2 b / 2 * D == pow2 a * D / (2 * pow2 b))%Q) by (field; lra).
    rewrite E. apply Qle_shift_div_r; [lra |]. nra. }
  destruct (Qle_bool (pow2 (a - b)) (Qabs (n # d))) eqn:E.
  - apply Qle_bool_iff in E. split; [exact E |].
    rewrite Habs, pow2_succ, pow2_sub. exact Hup.
  - assert (E' : (Qabs (n # d) < pow2 (a - b))%Q).
    { apply Qnot_le_lt. intros C. apply Qle_bool_iff in C. congruence. }
    split.
    + rewrite Habs. replace (a - b - 1) with (a - (b + 1)) by lia.
      rewrite pow2_sub, pow2_succ.
      assert (E2 : (pow2 a / (2 * pow2 b) == pow2 a / pow2 b / 2)%Q) by (field; lra).
      rewrite E2. exact Hlo.
    + replace (a - b - 1 + 1) with (a - b) by lia. exact E'.
Qed.

Lemma binade_lt (q : Q) (e : Z) :
  ~ (q == 0)%Q -> (Qabs q < pow2 e)%Q -> binade (Qred q) < e.
Proof.
  intros Hq H.
  assert (Hr : ~ (Qred q == 0)%Q) by (rewrite Qred_correct; exact Hq).
  destruct (binade_spec (Qred q) Hr) as [H1 _].
  rewrite (Qabs_wd _ _ (Qred_correct q)) in H1.
  apply pow2_lt_inv. eapply Qle_lt_trans; eassumption.
Qed.

Lemma nearest_double_comp (q q' : Q) :
  (q == q')%Q -> nearest_double q = nearest_double q'.
Proof.
  intros E. unfold nearest_double. rewrite (Qred_complete _ _ E). reflexivity.
Qed.

Lemma nearest_double_value (q : Q) :
  (nearest_double q
   == inject_Z (round_half_even (q / pow2 (ulp_exponent (Qred q))))
      * pow2 (ulp_exponent (Qred q)))%Q.
Proof.
  unfold nearest_double. cbv zeta.
  etransitivity; [apply Qred_correct |].
  rewrite (round_half_even_comp (Qred q / pow2 (ulp_exponent (Qred q)))
             (q / pow2 (ulp_exponent (Qred q))))
    by (apply Qdiv_comp; [apply Qred_correct | reflexivity]).
  reflexivity.
Qed.

(** The nearest double is within half a spacing. *)
Lemma nearest_double_error (q : Q) :
  (q - pow2 (ulp_exponent (Qred q)) / 2 <= nearest_double q
   <= q + pow2 (ulp_exponent (Qred q)) / 2)%Q.
Proof.
  rewrite nearest_double_value.
  pose proof (pow2_pos (ulp_exponent (Qred q))) as Hu.
  set (u := pow2 (ulp_exponent (Qred q))) in *.
  pose proof (round_half_even_error (q / u)) as [Hlo Hhi].
  set (k := inject_Z (round_half_even (q / u))) in *. clearbody k.
  assert (E : (q == q / u * u)%Q) by (field; lra).
  set (t := (q / u)%Q) in *. clearbody t u. rewrite E. clear E.
  unfold Qdiv. change (/ 2)%Q with (1 # 2)%Q.
  assert (H1 : ((t - (1 # 2)) * u <= k * u)%Q)
    by (apply Qmult_le_compat_r; lra).
  assert (H2 : (k * u <= (t + (1 # 2)) * u)%Q)
    by (apply Qmult_le_compat_r; lra).
  split; lra.
Qed.

Lemma nearest_double_zero (q : Q) : (q == 0)%Q -> (nearest_double q == 0)%Q.
Proof.
  intros E. rewrite nearest_double_value.
  rewrite round_half_even_zero; [ring|].
  unfold Qdiv. rewrite (Qmult_comp _ _ E _ _ (Qeq_refl _)). ring.
Qed.

(** A number with a significand below 2^53 and an exponent of the format
    is a double: rounding returns it. *)
Lemma nearest_double_exact (q : Q) (w j : Z) :
  Z.abs w < 2 ^ 53 -> -1074 <= j ->
  (q == inject_Z w * pow2 j)%Q ->
  (nearest_double q == q)%Q.
Proof.
  intros Hw Hj E.
  destruct (Z.eq_dec w 0) as [-> | Hw0].
  { assert (E0 : (q == 0)%Q) by (rewrite E; ring).
    rewrite (nearest_double_zero q E0), E0. reflexivity. }
  pose proof (pow2_pos j) as Hpj.
  assert (Hq : ~ (q == 0)%Q).
  { intros C. rewrite E in C.
    apply Qmult_integral in C. destruct C as [C | C]; [| lra].
    apply Hw0. apply (inject_Z_injective w 0). exact C. }
  assert (Habs : (Qabs q < pow2 (53 + j))%Q).
  { rewrite (Qabs_wd _ _ E), Qabs_Qmult, (Qabs_pos (pow2 j)) by lra.
    rewrite pow2_add. apply Qmult_lt_compat_r; [exact Hpj |].
    rewrite pow2_Z by lia.
    replace (Qabs (inject_Z w)) with (inject_Z (Z.abs w)) by reflexivity.
    rewrite <- Zlt_Qlt. exact Hw. }
  pose proof (binade_lt q (53 + j) Hq Habs) as Hb.
  set (ue := ulp_exponent (Qred q)).
  assert (Hue : ue <= j) by (unfold ue, ulp_exponent; lia).
  rewrite nearest_double_value. fold ue.
  pose proof (pow2_pos ue) as Hpu.
  assert (Ediv : (q / pow2 ue == inject_Z (w * 2 ^ (j - ue)))%Q).
  { rewrite E, inject_Z_mult, <- pow2_Z by lia. rewrite pow2_sub. field. lra. }
  rewrite (round_half_even_comp _ _ Ediv), round_half_even_Z.
  rewrite <- Ediv. field. lra.
Qed.

Lemma Qred_inject_Z (n : Z) : Qred (inject_Z n) = inject_Z n.
Proof.
  unfold Qred, inject_Z.
  pose proof (Z.ggcd_gcd n 1) as Hg.
  pose proof (Z.ggcd_correct_divisors n 1) as Hd.
  destruct (Z.ggcd n 1) as [g [a b]]. cbn [fst snd] in *.
  rewrite Z.gcd_1_r in Hg. subst g. destruct Hd as [Ha Hb].
  replace a with n by lia. replace b with 1 by lia. reflexivity.
Qed.

(** A double that is a whole number is printed as that number. *)
Lemma nearest_double_whole (q : Q) (n : Z) :
  (nearest_double q == inject_Z n)%Q -> nearest_double q = inject_Z n.
Proof.
  intros E. unfold nearest_double in *. cbv zeta in *.
  etransitivity; [| apply (Qred_inject_Z n)]. apply Qred_complete.
  etransitivity; [symmetry; apply Qred_correct | exact E].
Qed.

(** Every whole number up to 2^53 is a double. *)
Lemma nearest_double_int (n : Z) :
  Z.abs n <= 2 ^ 53 -> nearest_double (inject_Z n) = inject_Z n.
Proof.
  intros Hn. apply nearest_double_whole.
  destruct (Z.eq_dec (Z.abs n) (2 ^ 53)) as [Hmax | Hlt].
  - assert (Hn' : n = 2 ^ 53 \/ n = - 2 ^ 53) by lia.
    apply (nearest_double_exact _ (n / 2 ^ 53) 53); [| lia |];
      destruct Hn' as [-> | ->]; reflexivity.
  - apply (nearest_double_exact _ n 0); [lia | lia |].
    change (pow2 0) with 1%Q. ring.
Qed.

(** Between 1/2 and 2^23 the doubles are at most 2^-30 apart. *)
Lemma nearest_double_near (q : Q) :
  (1 # 2 <= q)%Q -> (q < 8388608)%Q ->
  (q - (1 # 2147483648) <= nearest_double q <= q + (1 # 2147483648))%Q.
Proof.
  intros Hlo Hhi.
  assert (Hq : ~ (q == 0)%Q) by (intros C; lra).
  assert (Habs : (Qabs q < pow2 23)%Q) by (rewrite Qabs_pos by lra; exact Hhi).
  pose proof (binade_lt q 23 Hq Habs) as Hb.
  assert (Hue : ulp_exponent (Qred q) <= -30) by (unfold ulp_exponent; lia).
  pose proof (nearest_double_error q) as [H1 H2].
  pose proof (pow2_le _ _ Hue) as Hp.
  change (pow2 (-30)) with (1 # 1073741824)%Q in Hp.
  set (u := pow2 (ulp_exponent (Qred q))) in *. clearbody u.
  unfold Qdiv in *. change (/ 2)%Q with (1 # 2)%Q in *.
  split; lra.
Qed.

(** *** Python's arithmetic *)

Lemma float_of_int_exact (n : Z) :
  Z.abs n <= 2 ^ 53 -> float_of_int n = inr (inject_Z n).
Proof.
  intros Hn. unfold float_of_int, to_double. cbv zeta.
  rewrite (nearest_double_int n Hn).
  destruct (Qle_bool (pow2 1024) (Qabs (inject_Z n))) eqn:E; [| reflexivity].
  exfalso. apply Qle_bool_iff in E. rewrite pow2_Z in E by lia.
  change (Qabs (inject_Z n)) with (inject_Z (Z.abs n)) in E.
  rewrite <- Zle_Qle in E.
  assert (2 ^ 53 < 2 ^ 1024) by (apply Z.pow_lt_mono_r; lia). lia.
Qed.

Lemma float_div_int_exact (x : Q) (n : Z) :
  n <> 0 -> Z.abs n <= 2 ^ 53 ->
  float_div_int x n = inr (nearest_double (x / inject_Z n)).
Proof.
  intros Hn0 Hn. unfold float_div_int. rewrite (float_of_int_exact n Hn).
  cbn [bind].
  destruct (Qeq_bool (inject_Z n) 0) eqn:E; [| reflexivity].
  apply Qeq_bool_eq in E. exfalso. apply Hn0.
  apply (inject_Z_injective n 0). exact E.
Qed.

(** The powers of two that [metatiling] may be. *)
Lemma metatiling_power (m : Z) :
  metatiling_allowed m = true -> exists k, 0 <= k <= 4 /\ m = 2 ^ k.
Proof.
  intros H. apply metatiling_allowed_iff in H.
  destruct H as [-> | [-> | [-> | [-> | ->]]]];
    [exists 0 | exists 1 | exists 2 | exists 3 | exists 4]; split; (lia || reflexivity).
Qed.

(** Dividing [cells * 2^z], with [cells] below 2^53 in magnitude, by one
    of the five values of metatiling is exact as long as the quotient is
    below 2^1024, and OverflowError from there on. *)
Lemma scaled_quotient_double (cells z m : Z) :
  metatiling_allowed m = true -> 0 <= z -> Z.abs cells < 2 ^ 53 ->
  (nearest_double (inject_Z (cells * 2 ^ z) / inject_Z m)
   == inject_Z (cells * 2 ^ z) / inject_Z m)%Q.
Proof.
  intros Hm Hz Hc. destruct (metatiling_power m Hm) as (k & Hk & ->).
  apply (nearest_double_exact _ cells (z - k)); [exact Hc | lia |].
  rewrite inject_Z_mult, <- !pow2_Z by lia. rewrite pow2_sub.
  pose proof (pow2_pos k). field. lra.
Qed.

Lemma scaled_quotient_size (cells z m : Z) :
  0 < m ->
  (pow2 1024 <= Qabs (inject_Z (cells * 2 ^ z) / inject_Z m))%Q
  <-> 2 ^ 1024 * m <= Z.abs cells * 2 ^ z.
Proof.
  intros Hm.
  assert (Hmq : (0 < inject_Z m)%Q)
    by (change 0%Q with (inject_Z 0); rewrite <- Zlt_Qlt; exact Hm).
  assert (Hpow : 0 < 2 ^ z \/ 2 ^ z = 0).
  { destruct (Z.le_gt_cases 0 z).
    - left. apply Z.pow_pos_nonneg; lia.
    - right. apply Z.pow_neg_r. lia. }
  assert (Eabs : (Qabs (inject_Z (cells * 2 ^ z) / inject_Z m)
                  == inject_Z (Z.abs cells * 2 ^ z) / inject_Z m)%Q).
  { unfold Qdiv. rewrite Qabs_Qmult.
    rewrite (Qabs_pos (/ inject_Z m)) by (apply Qlt_le_weak, Qinv_lt_0_compat; exact Hmq).
    change (Qabs (inject_Z (cells * 2 ^ z))) with (inject_Z (Z.abs (cells * 2 ^ z))).
    rewrite Z.abs_mul. replace (Z.abs (2 ^ z)) with (2 ^ z) by lia. reflexivity. }
  rewrite Eabs, pow2_Z by lia. split; intros H.
  - apply (Qmult_le_r _ _ (inject_Z m)) in H; [| exact Hmq].
    assert (E : (inject_Z (Z.abs cells * 2 ^ z) / inject_Z m * inject_Z m
                 == inject_Z (Z.abs cells * 2 ^ z))%Q) by (field; lra).
    rewrite E, <- inject_Z_mult, <- Zle_Qle in H. exact H.
  - apply Qle_shift_div_l; [exact Hmq |].
    rewrite <- inject_Z_mult, <- Zle_Qle. exact H.
Qed.

Lemma int_truediv_scaled (cells z m : Z) :
  metatiling_allowed m = true -> 0 <= z -> fits_double cells z m ->
  exists q, int_truediv (cells * 2 ^ z) m = inr q /\
            (q == inject_Z (cells * 2 ^ z) / inject_Z m)%Q.
Proof.
  intros Hm Hz [Hc Hfit].
  pose proof (scaled_quotient_double cells z m Hm Hz Hc) as E.
  destruct (metatiling_power m Hm) as (k & Hk & Hmk).
  assert (Hpos : 0 < m) by (subst m; apply Z.pow_pos_nonneg; lia).
  unfold int_truediv, to_double. cbv zeta.
  destruct (Z.eqb_spec m 0); [lia |].
  destruct (Qle_bool (pow2 1024)
              (Qabs (nearest_double (inject_Z (cells * 2 ^ z) / inject_Z m)))) eqn:B.
  - exfalso. apply Qle_bool_iff in B. rewrite (Qabs_wd _ _ E) in B.
    apply scaled_quotient_size in B; lia.
  - eexists. split; [reflexivity | exact E].
Qed.

Lemma int_truediv_overflow (cells z m : Z) :
  metatiling_allowed m = true -> 0 <= z -> Z.abs cells < 2 ^ 53 ->
  2 ^ 1024 * m <= Z.abs cells * 2 ^ z ->
  int_truediv (cells * 2 ^ z) m = inl OverflowError.
Proof.
  intros Hm Hz Hc Hbig.
  pose proof (scaled_quotient_double cells z m Hm Hz Hc) as E.
  destruct (metatiling_power m Hm) as (k & Hk & Hmk).
  assert (Hpos : 0 < m) by (subst m; apply Z.pow_pos_nonneg; lia).
  unfold int_truediv, to_double. cbv zeta.
  destruct (Z.eqb_spec m 0); [lia |].
  destruct (Qle_bool (pow2 1024)
              (Qabs (nearest_double (inject_Z (cells * 2 ^ z) / inject_Z m)))) eqn:B;
    [reflexivity |].
  exfalso.
  assert (B' : (pow2 1024 <= Qabs (nearest_double (inject_Z (cells * 2 ^ z) / inject_Z m)))%Q).
  { rewrite (Qabs_wd _ _ E). apply scaled_quotient_size; assumption. }
  apply Qle_bool_iff in B'. congruence.
Qed.

Section Construction.

Variable ROUND : Z.
Variable GridArg : Type.
Variable GridDefinition_new : GridArg -> result GridDefinition.

(** What a successful construction has done. *)
Lemma init_inv (grid : option GridArg) (tile_size metatiling : Z) (tp : TilePyramid) :
  TilePyramid_init ROUND GridDefinition_new grid tile_size metatiling = inr tp ->
  exists grid_arg g,
    grid = Some grid_arg /\
    GridDefinition_new grid_arg = inr g /\
    metatiling_allowed metatiling = true /\
    tp = {| tp_grid := g;
            tp_bounds := g_bounds g;
            tp_left := b_left (g_bounds g);
            tp_bottom := b_bottom (g_bounds g);
            tp_right := b_right (g_bounds g);
            tp_top := b_top (g_bounds g);
            tp_crs := g_crs g;
            tp_is_global := g_is_global g;
            tp_metatiling := metatiling;
            tp_tile_size := tile_size;
            tp_metatile_size := tile_size * metatiling;
            tp_x_size :=
              py_round (float_sub (b_right (g_bounds g)) (b_left (g_bounds g))) ROUND;
            tp_y_size :=
              py_round (float_sub (b_top (g_bounds g)) (b_bottom (g_bounds g))) ROUND |}.
Proof.
  unfold TilePyramid_init. destruct grid as [grid_arg|]; [|discriminate].
  destruct (metatiling_allowed metatiling) eqn:Hm; cbn [negb]; [|discriminate].
  destruct (GridDefinition_new grid_arg) as [e|g] eqn:Hg; cbn; [discriminate|].
  intros H. injection H as <-. exists grid_arg, g. auto.
Qed.

Lemma init_metatiling (grid : option GridArg) (tile_size metatiling : Z) (tp : TilePyramid) :
  TilePyramid_init ROUND GridDefinition_new grid tile_size metatiling = inr tp ->
  tp_metatiling tp = metatiling /\ tp_tile_size tp = tile_size /\
  (metatiling = 1 \/ metatiling = 2 \/ metatiling = 4 \/ metatiling = 8 \/ metatiling = 16).
Proof.
  intros H. destruct (init_inv _ _ _ _ H) as (ga & g & _ & _ & Hm & ->).
  cbn. repeat split. now apply metatiling_allowed_iff.
Qed.

(** C9. Construction fails with ConstructionError when the grid is missing
    and when metatiling is not one of 1, 2, 4, 8, 16; with a grid that the
    GridDefinition constructor accepts and one of the five values it
    succeeds.  When it succeeds, the pyramid stores the arguments tile_size
    and metatiling, its metatile_size is tile_size * metatiling, its grid
    is the one the GridDefinition constructor returned for the grid
    argument, bounds, left, bottom, right and top are those of that grid,
    and x_size is float(round(right - left, ROUND)), y_size
    float(round(top - bottom, ROUND)), computed on doubles (for an extent
    within the range of the doubles). *)
Theorem init_errors_and_derived_fields (grid : option GridArg) (tile_size metatiling : Z) :
  TilePyramid_init ROUND GridDefinition_new None tile_size metatiling = inl ConstructionError /\
  (~ In metatiling [1; 2; 4; 8; 16] ->
   TilePyramid_init ROUND GridDefinition_new grid tile_size metatiling = inl ConstructionError) /\
  (forall grid_arg g,
     grid = Some grid_arg -> In metatiling [1; 2; 4; 8; 16] ->
     GridDefinition_new grid_arg = inr g ->
     exists tp,
       TilePyramid_init ROUND GridDefinition_new grid tile_size metatiling = inr tp /\
       tp_grid tp = g) /\
  (forall tp, TilePyramid_init ROUND GridDefinition_new grid tile_size metatiling = inr tp ->
     tp_tile_size tp = tile_size /\
     tp_metatiling tp = metatiling /\
     tp_metatile_size tp = tile_size * metatiling /\
     (exists grid_arg,
        grid = Some grid_arg /\ GridDefinition_new grid_arg = inr (tp_grid tp)) /\
     tp_bounds tp = g_bounds (tp_grid tp) /\
     tp_left tp = b_left (tp_bounds tp) /\
     tp_bottom tp = b_bottom (tp_bounds tp) /\
     tp_right tp = b_right (tp_bounds tp) /\
     tp_top tp = b_top (tp_bounds tp) /\
     (finite_difference (tp_right tp) (tp_left tp) ->
      tp_x_size tp = py_round (float_sub (tp_right tp) (tp_left tp)) ROUND) /\
     (finite_difference (tp_top tp) (tp_bottom tp) ->
      tp_y_size tp = py_round (float_sub (tp_top tp) (tp_bottom tp)) ROUND)).
Proof.
  split; [reflexivity|]. split; [|split].
  - intros Hm. unfold TilePyramid_init. destruct grid; [|reflexivity].
    destruct (metatiling_allowed metatiling) eqn:E; [|reflexivity].
    exfalso. apply Hm. apply metatiling_allowed_iff in E. cbn. intuition.
  - intros grid_arg g -> Hm Hg.
    assert (Hallowed : metatiling_allowed metatiling = true).
    { apply metatiling_allowed_iff. cbn in Hm. intuition. }
    unfold TilePyramid_init. rewrite Hallowed, Hg. cbn [negb bind ret].
    eexists. split; reflexivity.
  - intros tp H. destruct (init_inv _ _ _ _ H) as (ga & g & Hg & Hnew & _ & ->).
    cbn. repeat split; trivial. exists ga. split; assumption.
Qed.

End Construction.

(** The ceiling of a quotient of integers, characterised: it is the least
    integer [c] with [a <= c * m]. *)
Lemma Qceiling_div_bounds (a m : Z) :
  0 < m ->
  let c := Qceiling (inject_Z a / inject_Z m) in
  (c - 1) * m < a <= c * m.
Proof.
  intros Hm c.
  assert (Hmq : (0 < inject_Z m)%Q)
    by (change 0%Q with (inject_Z 0); rewrite <- Zlt_Qlt; exact Hm).
  pose proof (Qle_ceiling (inject_Z a / inject_Z m)) as Hle.
  pose proof (Qceiling_lt (inject_Z a / inject_Z m)) as Hlt.
  fold c in Hle, Hlt.
  assert (Hne : ~ (inject_Z m == 0)%Q).
  { intro E. rewrite E in Hmq. exact (Qlt_irrefl _ Hmq). }
  assert (E : (inject_Z a / inject_Z m * inject_Z m == inject_Z a)%Q)
    by (field; exact Hne).
  split.
  - apply (Qmult_lt_r _ _ (inject_Z m)) in Hlt; [|exact Hmq].
    rewrite E, <- inject_Z_mult in Hlt. rewrite Zlt_Qlt. exact Hlt.
  - apply (Qmult_le_r _ _ (inject_Z m)) in Hle; [|exact Hmq].
    rewrite E, <- inject_Z_mult in Hle. rewrite Zle_Qle. exact Hle.
Qed.

(** [spec_matrix_size] without rationals: the ceiling is the integer [c]
    with [(c - 1) * m < cells * 2^zoom <= c * m], which integer division
    computes as [(cells * 2^zoom + m - 1) / m]. *)
Lemma spec_matrix_size_ceiling (cells zoom m : Z) :
  0 < m ->
  exists c,
    (c - 1) * m < cells * 2 ^ zoom <= c * m /\
    c = (cells * 2 ^ zoom + m - 1) / m /\
    spec_matrix_size cells zoom m = Z.max 1 c.
Proof.
  intros Hm. unfold spec_matrix_size.
  pose proof (Qceiling_div_bounds (cells * 2 ^ zoom) m Hm) as Hc. cbv zeta in Hc.
  set (c := Qceiling (inject_Z (cells * 2 ^ zoom) / inject_Z m)) in *.
  exists c. split; [exact Hc|]. split; [|reflexivity].
  apply (Z.div_unique_pos _ m c (cells * 2 ^ zoom + m - 1 - m * c)); lia.
Qed.

Example spec_matrix_size_irregular :
  spec_matrix_size 315 0 2 = 158 /\ spec_matrix_size 161 0 2 = 81 /\
  spec_matrix_size 1 0 16 = 1 /\ spec_matrix_size 1 3 2 = 4.
Proof. repeat split. Qed.

Lemma clamp_to_one (c : Z) : (if c <? 1 then 1 else c) = Z.max 1 c.
Proof. destruct (Z.ltb_spec c 1); lia. Qed.

Section Sizes.

Variable tp : TilePyramid.
Hypothesis metatiling_checked : metatiling_allowed (tp_metatiling tp) = true.

Lemma matrix_width_valid (z : Z) :
  0 <= z ->
  fits_double (shape_width (g_shape (tp_grid tp))) z (tp_metatiling tp) ->
  matrix_width tp (PyInt z)
  = inr (spec_matrix_size (shape_width (g_shape (tp_grid tp))) z (tp_metatiling tp)).
Proof.
  intros Hz Hfit. unfold matrix_width, validate_zoom.
  destruct (Z.ltb_spec z 0); [lia|]. cbn [bind ret].
  destruct (int_truediv_scaled _ z _ metatiling_checked Hz Hfit) as (q & -> & E).
  cbn [bind ret]. rewrite clamp_to_one, (Qceiling_comp _ _ E). reflexivity.
Qed.

Lemma matrix_height_valid (z : Z) :
  0 <= z ->
  fits_double (shape_height (g_shape (tp_grid tp))) z (tp_metatiling tp) ->
  matrix_height tp (PyInt z)
  = inr (spec_matrix_size (shape_height (g_shape (tp_grid tp))) z (tp_metatiling tp)).
Proof.
  intros Hz Hfit. unfold matrix_height, validate_zoom.
  destruct (Z.ltb_spec z 0); [lia|]. cbn [bind ret].
  destruct (int_truediv_scaled _ z _ metatiling_checked Hz Hfit) as (q & -> & E).
  cbn [bind ret]. rewrite clamp_to_one, (Qceiling_comp _ _ E). reflexivity.
Qed.

Lemma matrix_width_overflow (z : Z) :
  0 <= z ->
  Z.abs (shape_width (g_shape (tp_grid tp))) < 2 ^ 53 ->
  2 ^ 1024 * tp_metatiling tp <= Z.abs (shape_width (g_shape (tp_grid tp))) * 2 ^ z ->
  matrix_width tp (PyInt z) = inl OverflowError.
Proof.
  intros Hz Hc Hbig. unfold matrix_width, validate_zoom.
  destruct (Z.ltb_spec z 0); [lia|]. cbn [bind ret].
  rewrite (int_truediv_overflow _ z _ metatiling_checked Hz Hc Hbig). reflexivity.
Qed.

Lemma matrix_height_overflow (z : Z) :
  0 <= z ->
  Z.abs (shape_height (g_shape (tp_grid tp))) < 2 ^ 53 ->
  2 ^ 1024 * tp_metatiling tp <= Z.abs (shape_height (g_shape (tp_grid tp))) * 2 ^ z ->
  matrix_height tp (PyInt z) = inl OverflowError.
Proof.
  intros Hz Hc Hbig. unfold matrix_height, validate_zoom.
  destruct (Z.ltb_spec z 0); [lia|]. cbn [bind ret].
  rewrite (int_truediv_overflow _ z _ metatiling_checked Hz Hc Hbig). reflexivity.
Qed.

End Sizes.

(** Whatever they are given, the two methods return no number below 1. *)
Lemma matrix_width_floor (tp : TilePyramid) (zoom : pyval) (n : Z) :
  matrix_width tp zoom = inr n -> 1 <= n.
Proof.
  unfold matrix_width. destruct (validate_zoom zoom) as [e | z]; [discriminate |].
  cbn [bind]. destruct (int_truediv _ _) as [e | q]; [discriminate |].
  cbn [bind ret]. rewrite clamp_to_one. intros H. injection H as <-. lia.
Qed.

Lemma matrix_height_floor (tp : TilePyramid) (zoom : pyval) (n : Z) :
  matrix_height tp zoom = inr n -> 1 <= n.
Proof.
  unfold matrix_height. destruct (validate_zoom zoom) as [e | z]; [discriminate |].
  cbn [bind]. destruct (int_truediv _ _) as [e | q]; [discriminate |].
  cbn [bind ret]. rewrite clamp_to_one. intros H. injection H as <-. lia.
Qed.

Lemma tile_width_valid (tp : TilePyramid) (z : Z) :
  0 <= z ->
  tile_width tp (PyInt z)
  = inr (spec_tile_pixels (tp_tile_size tp * tp_metatiling tp) (tp_tile_size tp)
           (shape_width (g_shape (tp_grid tp))) z).
Proof.
  intros Hz. unfold tile_width, validate_zoom, spec_tile_pixels.
  destruct (Z.ltb_spec z 0); [lia|]. cbn [bind ret]. cbv zeta. unfold ret.
  destruct (Z.gtb_spec (tp_tile_size tp * tp_metatiling tp)
              (2 ^ z * tp_tile_size tp * shape_width (g_shape (tp_grid tp))));
    f_equal; lia.
Qed.

Lemma tile_height_valid (tp : TilePyramid) (z : Z) :
  0 <= z ->
  tile_height tp (PyInt z)
  = inr (spec_tile_pixels (tp_tile_size tp * tp_metatiling tp) (tp_tile_size tp)
           (shape_height (g_shape (tp_grid tp))) z).
Proof.
  intros Hz. unfold tile_height, validate_zoom, spec_tile_pixels.
  destruct (Z.ltb_spec z 0); [lia|]. cbn [bind ret]. cbv zeta. unfold ret.
  destruct (Z.gtb_spec (tp_tile_size tp * tp_metatiling tp)
              (2 ^ z * tp_tile_size tp * shape_height (g_shape (tp_grid tp))));
    f_equal; lia.
Qed.

Section Constructed.

Variable ROUND : Z.
Variable GridArg : Type.
Variable GridDefinition_new : GridArg -> result GridDefinition.
Variable grid : option GridArg.
Variables tile_size metatiling : Z.
Variable tp : TilePyramid.
Hypothesis constructed :
  TilePyramid_init ROUND GridDefinition_new grid tile_size metatiling = inr tp.

Lemma constructed_metatiling_pos : 0 < tp_metatiling tp.
Proof.
  destruct (init_metatiling _ _ _ _ _ _ _ constructed) as (-> & _ & H). lia.
Qed.

Lemma constructed_metatiling_allowed : metatiling_allowed (tp_metatiling tp) = true.
Proof.
  destruct (init_metatiling _ _ _ _ _ _ _ constructed) as (-> & _ & H).
  now apply metatiling_allowed_iff.
Qed.

(** C1, as the code has it.  For a constructed pyramid and a zoom z >= 0:
    while the base width is below 2^53 in magnitude and width * 2^z /
    metatiling is below 2^1024, the float quotient is exact and
    matrix_width(z) is max(1, ceil(shape.width * 2^z / metatiling)); with
    a quotient of 2^1024 or more the division raises OverflowError.  The
    same for matrix_height and the base height.  Whatever they return is
    at least 1, and both fail with InvalidZoom when the zoom is negative
    or no integer. *)
Theorem matrix_size_formula :
  (forall z, 0 <= z ->
     (fits_double (shape_width (g_shape (tp_grid tp))) z (tp_metatiling tp) ->
      matrix_width tp (PyInt z)
      = inr (spec_matrix_size (shape_width (g_shape (tp_grid tp))) z (tp_metatiling tp))) /\
     (fits_double (shape_height (g_shape (tp_grid tp))) z (tp_metatiling tp) ->
      matrix_height tp (PyInt z)
      = inr (spec_matrix_size (shape_height (g_shape (tp_grid tp))) z (tp_metatiling tp)))) /\
  (forall z, 0 <= z ->
     (Z.abs (shape_width (g_shape (tp_grid tp))) < 2 ^ 53 ->
      2 ^ 1024 * tp_metatiling tp <= Z.abs (shape_width (g_shape (tp_grid tp))) * 2 ^ z ->
      matrix_width tp (PyInt z) = inl OverflowError) /\
     (Z.abs (shape_height (g_shape (tp_grid tp))) < 2 ^ 53 ->
      2 ^ 1024 * tp_metatiling tp <= Z.abs (shape_height (g_shape (tp_grid tp))) * 2 ^ z ->
      matrix_height tp (PyInt z) = inl OverflowError)) /\
  (forall zoom n,
     matrix_width tp zoom = inr n \/ matrix_height tp zoom = inr n -> 1 <= n) /\
  (forall zoom, ~ valid_zoom zoom ->
     matrix_width tp zoom = inl InvalidZoom /\ matrix_height tp zoom = inl InvalidZoom).
Proof.
  pose proof constructed_metatiling_allowed as Hm.
  split; [|split; [|split]].
  - intros z Hz. split; intros Hfit.
    + now apply matrix_width_valid.
    + now apply matrix_height_valid.
  - intros z Hz. split; intros Hc Hbig.
    + now apply matrix_width_overflow.
    + now apply matrix_height_overflow.
  - intros zoom n [H | H].
    + exact (matrix_width_floor _ _ _ H).
    + exact (matrix_height_floor _ _ _ H).
  - intros zoom Hbad. apply validate_zoom_invalid in Hbad.
    unfold matrix_width, matrix_height. rewrite Hbad. split; reflexivity.
Qed.

(** C3. For a constructed pyramid and a valid zoom z, tile_width(z) is
    min(metatile_size, 2^z * tile_size * shape.width) and tile_height(z) is
    min(metatile_size, 2^z * tile_size * shape.height), where metatile_size
    = tile_size * metatiling. *)
Theorem tile_pixels_formula (z : Z) :
  0 <= z ->
  tp_metatile_size tp = tp_tile_size tp * tp_metatiling tp /\
  tile_width tp (PyInt z)
  = inr (Z.min (tp_metatile_size tp)
               (2 ^ z * tp_tile_size tp * shape_width (g_shape (tp_grid tp)))) /\
  tile_height tp (PyInt z)
  = inr (Z.min (tp_metatile_size tp)
               (2 ^ z * tp_tile_size tp * shape_height (g_shape (tp_grid tp)))).
Proof.
  intros Hz.
  assert (Hms : tp_metatile_size tp = tp_tile_size tp * tp_metatiling tp).
  { destruct (init_inv _ _ _ _ _ _ _ constructed) as (ga & g & _ & _ & _ & ->).
    reflexivity. }
  split; [exact Hms|]. rewrite Hms. split.
  - now apply tile_width_valid.
  - now apply tile_height_valid.
Qed.

End Constructed.

Lemma unit_pyramid_constructed :
  TilePyramid_init 20 finished_grid (Some unit_grid) 256 1 = inr unit_pyramid.
Proof. reflexivity. Qed.

Lemma fits_double_small (cells z m : Z) :
  0 <= z -> 0 < m -> Z.abs cells * 2 ^ z < 2 ^ 53 -> fits_double cells z m.
Proof.
  intros Hz Hm H.
  assert (Hp : 1 <= 2 ^ z) by (apply Z.lt_pred_le, Z.pow_pos_nonneg; lia).
  assert (2 ^ 53 < 2 ^ 1024) by (apply Z.pow_lt_mono_r; lia).
  split; nia.
Qed.

Lemma matrix_size_formula_witness :
  exists tp,
    TilePyramid_init 20 finished_grid (Some irregular_grid) 256 2 = inr tp /\
    matrix_width tp (PyInt 0) = inr 158 /\
    matrix_height tp (PyInt 0) = inr 81 /\
    matrix_width tp (PyFloat (1 # 2)) = inl InvalidZoom /\
    matrix_height tp (PyInt (-1)) = inl InvalidZoom.
Proof.
  eexists. split; [reflexivity|].
  destruct (matrix_size_formula 20 _ finished_grid (Some irregular_grid) 256 2 _ eq_refl)
    as (Hsize & _ & _ & Hbad).
  destruct (Hsize 0 ltac:(lia)) as [Hw Hh].
  split; [apply Hw; apply fits_double_small; cbn; lia|].
  split; [apply Hh; apply fits_double_small; cbn; lia|]. split.
  - apply Hbad. intros (z & E & _). discriminate E.
  - apply Hbad. intros (z & E & Hz). injection E as <-. lia.
Defined.

(** C1, as the specification words it, fails.  At zoom 1024 the pyramid of
    one base tile has no matrix size: 2^1024 is too large for the float
    quotient, and both methods raise OverflowError.  And a base width of
    2^53 + 1 with metatiling 2 gives 2^52 columns at zoom 0, one less than
    the ceiling of the exact quotient: the float quotient is rounded. *)
Lemma matrix_size_beyond_doubles :
  valid_zoom (PyInt 1024) /\
  TilePyramid_init 20 finished_grid (Some unit_grid) 256 1 = inr unit_pyramid /\
  matrix_width unit_pyramid (PyInt 1024) = inl OverflowError /\
  matrix_height unit_pyramid (PyInt 1024) = inl OverflowError /\
  exists tp,
    TilePyramid_init 20 finished_grid (Some wide_grid) 256 2 = inr tp /\
    matrix_width tp (PyInt 0) = inr (2 ^ 52) /\
    spec_matrix_size (shape_width (g_shape (tp_grid tp))) 0 (tp_metatiling tp)
    = 2 ^ 52 + 1.
Proof.
  split; [exists 1024; split; [reflexivity | lia] |].
  split; [reflexivity |].
  split; [vm_compute; reflexivity |].
  split; [vm_compute; reflexivity |].
  eexists. split; [reflexivity |].
  split; vm_compute; reflexivity.
Qed.

Lemma tile_pixels_formula_witness :
  exists tp,
    TilePyramid_init 20 finished_grid (Some unit_grid) 256 4 = inr tp /\
    tile_width tp (PyInt 1) = inr 512 /\
    tile_height tp (PyInt 3) = inr 1024.
Proof.
  eexists. split; [reflexivity|]. split.
  - exact (proj1 (proj2
      (tile_pixels_formula 20 _ finished_grid (Some unit_grid) 256 4 _ eq_refl 1 ltac:(lia)))).
  - exact (proj2 (proj2
      (tile_pixels_formula 20 _ finished_grid (Some unit_grid) 256 4 _ eq_refl 3 ltac:(lia)))).
Defined.

Lemma init_errors_and_derived_fields_witness :
  TilePyramid_init 20 finished_grid (Some unit_grid) 256 3 = inl ConstructionError /\
  tp_tile_size unit_pyramid = 256 /\
  tp_metatile_size unit_pyramid = 256 * 1 /\
  tp_x_size unit_pyramid = py_round (float_sub 10 0) 20 /\
  (tp_x_size unit_pyramid == 10)%Q.
Proof.
  destruct (init_errors_and_derived_fields 20 _ finished_grid (Some unit_grid) 256 3)
    as (_ & Hbad & _).
  destruct (init_errors_and_derived_fields 20 _ finished_grid (Some unit_grid) 256 1)
    as (_ & _ & _ & Hok).
  destruct (Hok unit_pyramid eq_refl) as (Hts & _ & Hms & _ & _ & _ & _ & _ & _ & Hx & _).
  split; [|split; [|split; [|split]]].
  - apply Hbad. cbn. intros H. repeat (destruct H as [H|H]; [discriminate H|]). exact H.
  - exact Hts.
  - exact Hms.
  - apply Hx. eexists. vm_compute. reflexivity.
  - vm_compute. reflexivity.
Defined.

(** *** Point resolution *)

Lemma outside_check (tp : TilePyramid) (x y : Q) :
  Qltb x (tp_left tp) || Qltb (tp_right tp) x
  || Qltb y (tp_bottom tp) || Qltb (tp_top tp) y = true
  <-> outside tp x y.
Proof.
  unfold outside. rewrite !orb_true_iff, !Qltb_lt. tauto.
Qed.


Section PointResolution.

Variable _tile_from_xy : TilePyramid -> Q -> Q -> pyval -> string -> result Tile.

(** Modelled from the spec: [_tile_from_xy] of [_funcs.py] is not among the
    sources.  "Maps a point to exactly one tile" (section 4.4): for a valid
    zoom, a point within the bounds and one of the four edge codes the
    helper returns a tile. *)
Hypothesis point_has_tile :
  forall tp x y zoom on_edge_use,
    valid_zoom zoom -> ~ outside tp x y ->
    In on_edge_use ["lb"; "rb"; "rt"; "lt"] ->
    exists tile, _tile_from_xy tp x y zoom on_edge_use = inr tile.


End PointResolution.



(** *** Bounds queries *)

Section BoundsQueries.

Variable _global_tiles_from_bounds : TilePyramid -> pyval -> pyval -> generated Tile.
Variable _tiles_from_cleaned_bounds : TilePyramid -> pyval -> pyval -> generated Tile.

(** Past its two checks, [tiles_from_bounds] is the sweep that [is_global]
    selects, run on the bounds as a [Bounds] value. *)
Lemma tiles_from_bounds_accepts (tp : TilePyramid) (bounds zoom : pyval) (l b r t : pyval) :
  valid_zoom zoom ->
  isinstance_tuple bounds = true ->
  tuple_items bounds = [l; b; r; t] ->
  tiles_from_bounds _global_tiles_from_bounds _tiles_from_cleaned_bounds tp bounds zoom
  = if tp_is_global tp
    then _global_tiles_from_bounds tp (PyBounds l b r t) zoom
    else _tiles_from_cleaned_bounds tp (PyBounds l b r t) zoom.
Proof.
  intros Hzoom Htuple Hitems.
  destruct (validate_zoom_valid _ Hzoom) as (z & _ & _ & Hv).
  unfold tiles_from_bounds. rewrite Hv. cbn [gen_bind].
  destruct bounds; try discriminate Htuple; cbn in Hitems |- *.
  - subst items. reflexivity.
  - injection Hitems as -> -> -> ->. reflexivity.
Qed.

(** C7, as the code has it.  tiles_from_bounds first validates the zoom
    (InvalidZoom otherwise) and then checks that bounds is a tuple of length
    4, failing with InvalidArgument when it is no tuple or has another
    length; the four elements are not inspected: any tuple of length 4 is
    handed to the sweep that is_global selects. *)
Theorem tiles_from_bounds_validation (tp : TilePyramid) (bounds zoom : pyval) :
  (~ valid_zoom zoom -> tiles_from_bounds _global_tiles_from_bounds _tiles_from_cleaned_bounds tp bounds zoom = gen_raise InvalidZoom) /\
  (valid_zoom zoom ->
     (isinstance_tuple bounds = false \/ List.length (tuple_items bounds) <> 4%nat ->
        tiles_from_bounds _global_tiles_from_bounds _tiles_from_cleaned_bounds tp bounds zoom = gen_raise InvalidArgument) /\
     (isinstance_tuple bounds = true ->
      forall l b r t, tuple_items bounds = [l; b; r; t] ->
        tiles_from_bounds _global_tiles_from_bounds _tiles_from_cleaned_bounds tp bounds zoom
        = if tp_is_global tp
          then _global_tiles_from_bounds tp (PyBounds l b r t) zoom
          else _tiles_from_cleaned_bounds tp (PyBounds l b r t) zoom)).
Proof.
  split.
  - intros Hbad. unfold tiles_from_bounds. now rewrite (validate_zoom_invalid _ Hbad).
  - intros Hzoom. split.
    + destruct (validate_zoom_valid _ Hzoom) as (z & _ & _ & Hv).
      unfold tiles_from_bounds. rewrite Hv. cbn [gen_bind].
      intros [Hno | Hlen].
      * rewrite Hno. reflexivity.
      * destruct bounds; try reflexivity; cbn in Hlen |- *.
        -- destruct (Z.eqb_spec (Z.of_nat (List.length items)) 4) as [E|E]; [|reflexivity].
           exfalso. apply Hlen. lia.
        -- exfalso. apply Hlen. reflexivity.
    + intros Htuple l b r t Hitems. now apply tiles_from_bounds_accepts.
Qed.

End BoundsQueries.

Lemma tiles_from_bounds_validation_witness :
  tiles_from_bounds single_tile_sweep single_tile_sweep unit_pyramid
    (PyTuple [PyInt 0; PyInt 0; PyInt 10; PyInt 10]) (PyStr "0")
  = gen_raise InvalidZoom /\
  tiles_from_bounds single_tile_sweep single_tile_sweep unit_pyramid
    (PyList [PyInt 0; PyInt 0; PyInt 10; PyInt 10]) (PyInt 0)
  = gen_raise InvalidArgument /\
  tiles_from_bounds single_tile_sweep single_tile_sweep unit_pyramid
    (PyTuple [PyInt 0; PyInt 0; PyInt 10]) (PyInt 0)
  = gen_raise InvalidArgument /\
  tiles_from_bounds single_tile_sweep single_tile_sweep unit_pyramid
    (PyTuple [PyInt 0; PyInt 0; PyInt 10; PyInt 10]) (PyInt 0)
  = mkGenerated [mkTile unit_pyramid 0 0 0] None.
Proof.
  assert (Hzoom : valid_zoom (PyInt 0)) by (exists 0; split; [reflexivity | lia]).
  split; [|split; [|split]].
  - apply (proj1 (tiles_from_bounds_validation single_tile_sweep single_tile_sweep
                    unit_pyramid _ (PyStr "0"))).
    intros (z & E & _). discriminate E.
  - apply (proj1 (proj2 (tiles_from_bounds_validation single_tile_sweep single_tile_sweep
                           unit_pyramid _ (PyInt 0)) Hzoom)).
    left. reflexivity.
  - apply (proj1 (proj2 (tiles_from_bounds_validation single_tile_sweep single_tile_sweep
                           unit_pyramid _ (PyInt 0)) Hzoom)).
    right. cbn. lia.
  - rewrite (proj2 (proj2 (tiles_from_bounds_validation single_tile_sweep single_tile_sweep
                             unit_pyramid (PyTuple [PyInt 0; PyInt 0; PyInt 10; PyInt 10])
                             (PyInt 0)) Hzoom)
               eq_refl (PyInt 0) (PyInt 0) (PyInt 10) (PyInt 10) eq_refl).
    reflexivity.
Defined.

(** C7, as the specification words it, fails: a tuple of four strings is not "4
    numeric values", yet the check lets it through, whatever the sweeps
    are; with a sweep that yields a tile the query ends without any
    error. *)
Lemma tiles_from_bounds_four_strings :
  four_numbers (PyTuple [PyStr "a"; PyStr "b"; PyStr "c"; PyStr "d"]) = false /\
  valid_zoom (PyInt 0) /\
  (forall global_sweep cleaned_sweep,
     tiles_from_bounds global_sweep cleaned_sweep unit_pyramid
       (PyTuple [PyStr "a"; PyStr "b"; PyStr "c"; PyStr "d"]) (PyInt 0)
     = cleaned_sweep unit_pyramid
         (PyBounds (PyStr "a") (PyStr "b") (PyStr "c") (PyStr "d")) (PyInt 0)) /\
  tiles_from_bounds single_tile_sweep single_tile_sweep unit_pyramid
    (PyTuple [PyStr "a"; PyStr "b"; PyStr "c"; PyStr "d"]) (PyInt 0)
  = mkGenerated [mkTile unit_pyramid 0 0 0] None.
Proof.
  split; [reflexivity|]. split; [exists 0; split; [reflexivity | lia]|].
  split; [intros; reflexivity | reflexivity].
Qed.

(** *** Geometry queries *)

(** When every call returns, [yield_each] yields the results one per
    element, in the order of the elements, and ends without error. *)
Lemma yield_each_all {A B : Type} (f : A -> result B) (l : list A) (out : list B) :
  Forall2 (fun a b => f a = inr b) l out ->
  yield_each f l = mkGenerated out None.
Proof.
  induction 1 as [|a b l out Hab _ IH]; cbn.
  - reflexivity.
  - rewrite Hab, IH. reflexivity.
Qed.

(** The first call that raises ends the iteration after the results of the
    elements before it. *)
Lemma yield_each_raise {A B : Type} (f : A -> result B) (l1 l2 : list A) (a : A)
    (out : list B) (e : exn) :
  Forall2 (fun a b => f a = inr b) l1 out ->
  f a = inl e ->
  yield_each f (l1 ++ a :: l2) = mkGenerated out (Some e).
Proof.
  intros Hall He. induction Hall as [|a' b l out Hab _ IH]; cbn.
  - rewrite He. reflexivity.
  - rewrite Hab, IH. reflexivity.
Qed.

Lemma yield_each_length {A B : Type} (f : A -> result B) (l : list A) :
  raised (yield_each f l) = None ->
  List.length (yielded (yield_each f l)) = List.length l.
Proof.
  induction l as [|a l IH]; cbn; [reflexivity|].
  destruct (f a); cbn; [discriminate|]. intros H. now rewrite IH.
Qed.

Lemma string_eqb_neq (s t : string) : s <> t -> String.eqb s t = false.
Proof. intros H. now apply String.eqb_neq. Qed.

Section GeometryQueries.

Variable _global_tiles_from_bounds : TilePyramid -> pyval -> pyval -> generated Tile.
Variable _tiles_from_cleaned_bounds : TilePyramid -> pyval -> pyval -> generated Tile.
Variable _tile_from_xy : TilePyramid -> Q -> Q -> pyval -> string -> result Tile.
Variable clip_geometry_to_srs_bounds : Geometry -> TilePyramid -> Geometry.
Variable prepared_intersects_bbox : Geometry -> Tile -> bool.

Local Abbreviation collaborators f :=
  (f _global_tiles_from_bounds _tiles_from_cleaned_bounds _tile_from_xy
     clip_geometry_to_srs_bounds prepared_intersects_bbox).

(** C6. With a valid zoom, tiles_from_geom yields nothing, without error,
    for an empty geometry; fails with InvalidGeometry for a topologically
    invalid one (emptiness is tested first, and shapely's empty geometries
    are valid); for a Point it yields the one result of tile_from_xy(x, y,
    zoom); for a MultiPoint it yields the result of tile_from_xy for each
    point, in input order and without deduplication: when every point
    resolves, exactly the list of the resolved tiles, one per point. *)
Theorem tiles_from_geom_dispatch (tp : TilePyramid) (geometry : Geometry) (zoom : pyval) :
  valid_zoom zoom ->
  (is_empty geometry = true -> collaborators tiles_from_geom tp geometry zoom = gen_empty) /\
  (empty_is_valid geometry -> is_valid geometry = false ->
     collaborators tiles_from_geom tp geometry zoom = gen_raise InvalidGeometry) /\
  (is_empty geometry = false -> is_valid geometry = true ->
   geom_type geometry = "Point" ->
     collaborators tiles_from_geom tp geometry zoom
     = match tile_from_xy _tile_from_xy tp (pt_x (geom_xy geometry)) (pt_y (geom_xy geometry)) zoom "rb" with
       | inl e => gen_raise e
       | inr tile => mkGenerated [tile] None
       end) /\
  (is_empty geometry = false -> is_valid geometry = true ->
   geom_type geometry = "MultiPoint" ->
     collaborators tiles_from_geom tp geometry zoom
     = yield_each (fun point => tile_from_xy _tile_from_xy tp (pt_x point) (pt_y point) zoom "rb")
         (geom_points geometry) /\
     forall tiles,
       Forall2 (fun point tile => tile_from_xy _tile_from_xy tp (pt_x point) (pt_y point) zoom "rb" = inr tile)
         (geom_points geometry) tiles ->
       collaborators tiles_from_geom tp geometry zoom = mkGenerated tiles None /\
       List.length tiles = List.length (geom_points geometry)).
Proof.
  intros Hzoom. destruct (validate_zoom_valid _ Hzoom) as (z & _ & _ & Hv).
  unfold tiles_from_geom. rewrite Hv. cbn [gen_bind].
  split; [|split; [|split]].
  - intros ->. reflexivity.
  - intros Hshapely Hinvalid. unfold empty_is_valid in Hshapely.
    destruct (is_empty geometry).
    + rewrite Hshapely in Hinvalid by reflexivity. discriminate Hinvalid.
    + rewrite Hinvalid. reflexivity.
  - intros -> -> ->. cbn [negb String.eqb]. reflexivity.
  - intros -> -> ->. cbn [negb]. cbn. split; [reflexivity|].
    intros tiles Hall. split.
    + now apply yield_each_all.
    + symmetry. exact (Forall2_length Hall).
Qed.

(** C10. With a valid zoom, a non-empty valid geometry whose kind is none of
    Point, MultiPoint, LineString, MultiLineString, Polygon, MultiPolygon,
    GeometryCollection yields nothing and raises nothing. *)
Theorem tiles_from_geom_other_kind (tp : TilePyramid) (geometry : Geometry) (zoom : pyval) :
  valid_zoom zoom ->
  is_empty geometry = false ->
  is_valid geometry = true ->
  ~ In (geom_type geometry) known_kinds ->
  collaborators tiles_from_geom tp geometry zoom = gen_empty /\
  yielded (collaborators tiles_from_geom tp geometry zoom) = [] /\
  raised (collaborators tiles_from_geom tp geometry zoom) = None.
Proof.
  intros Hzoom Hne Hval Hkind.
  assert (E : collaborators tiles_from_geom tp geometry zoom = gen_empty).
  { destruct (validate_zoom_valid _ Hzoom) as (z & _ & _ & Hv).
    unfold tiles_from_geom. rewrite Hv, Hne, Hval. cbn [gen_bind negb].
    unfold known_kinds in Hkind. cbn [In] in Hkind.
    rewrite (string_eqb_neq (geom_type geometry) "Point") by intuition.
    rewrite (string_eqb_neq (geom_type geometry) "MultiPoint") by intuition.
    unfold sweep_kinds. cbn [existsb].
    rewrite !string_eqb_neq by intuition. reflexivity. }
  rewrite E. repeat split.
Qed.

End GeometryQueries.

Lemma tiles_from_geom_dispatch_witness :
  tiles_from_geom single_tile_sweep single_tile_sweep single_tile unclipped intersects_all
    unit_pyramid (geometry_of "Polygon" []) (PyInt 0)
  = gen_empty /\
  tiles_from_geom single_tile_sweep single_tile_sweep single_tile unclipped intersects_all
    unit_pyramid bowtie (PyInt 0)
  = gen_raise InvalidGeometry /\
  tiles_from_geom single_tile_sweep single_tile_sweep single_tile unclipped intersects_all
    unit_pyramid (geometry_of "Point" [mkPoint 5 5]) (PyInt 0)
  = mkGenerated [mkTile unit_pyramid 0 0 0] None /\
  tiles_from_geom single_tile_sweep single_tile_sweep single_tile unclipped intersects_all
    unit_pyramid (geometry_of "MultiPoint" [mkPoint 5 5; mkPoint 1 2; mkPoint 5 5]) (PyInt 0)
  = mkGenerated [mkTile unit_pyramid 0 0 0; mkTile unit_pyramid 0 0 0;
                 mkTile unit_pyramid 0 0 0] None.
Proof.
  assert (Hzoom : valid_zoom (PyInt 0)) by (exists 0; split; [reflexivity | lia]).
  split; [|split; [|split]].
  - destruct (tiles_from_geom_dispatch single_tile_sweep single_tile_sweep single_tile
                unclipped intersects_all unit_pyramid (geometry_of "Polygon" []) (PyInt 0)
                Hzoom) as (Hempty & _).
    exact (Hempty eq_refl).
  - destruct (tiles_from_geom_dispatch single_tile_sweep single_tile_sweep single_tile
                unclipped intersects_all unit_pyramid bowtie (PyInt 0) Hzoom)
      as (_ & Hinvalid & _).
    apply Hinvalid; [discriminate | reflexivity].
  - destruct (tiles_from_geom_dispatch single_tile_sweep single_tile_sweep single_tile
                unclipped intersects_all unit_pyramid (geometry_of "Point" [mkPoint 5 5])
                (PyInt 0) Hzoom) as (_ & _ & Hpoint & _).
    exact (Hpoint eq_refl eq_refl eq_refl).
  - destruct (tiles_from_geom_dispatch single_tile_sweep single_tile_sweep single_tile
                unclipped intersects_all unit_pyramid
                (geometry_of "MultiPoint" [mkPoint 5 5; mkPoint 1 2; mkPoint 5 5])
                (PyInt 0) Hzoom) as (_ & _ & _ & Hmulti).
    destruct (Hmulti eq_refl eq_refl eq_refl) as (_ & Hall).
    apply Hall. repeat constructor.
Defined.

Lemma tiles_from_geom_other_kind_witness :
  tiles_from_geom single_tile_sweep single_tile_sweep single_tile unclipped intersects_all
    unit_pyramid (geometry_of "LinearRing" [mkPoint 0 0; mkPoint 5 5; mkPoint 0 5; mkPoint 0 0])
    (PyInt 0)
  = gen_empty.
Proof.
  apply (tiles_from_geom_other_kind single_tile_sweep single_tile_sweep single_tile
           unclipped intersects_all unit_pyramid
           (geometry_of "LinearRing" [mkPoint 0 0; mkPoint 5 5; mkPoint 0 5; mkPoint 0 0])
           (PyInt 0)).
  - exists 0. split; [reflexivity | lia].
  - reflexivity.
  - reflexivity.
  - cbn. intros H. repeat (destruct H as [H|H]; [discriminate H|]). exact H.
Defined.

(** *** Dictionaries, equality and hashing *)

Section Dictionaries.

Variable ROUND : Z.
Variable GridArg : Type.
Variable GridDefinition_new : GridArg -> result GridDefinition.
Variable grid_to_dict : GridDefinition -> GridArg.
Variable grid_eq : GridDefinition -> GridDefinition -> bool.

(** Equality compares the grid, tile_size and metatiling, and nothing else. *)
Lemma TilePyramid_eq_iff (a b : TilePyramid) :
  TilePyramid_eq grid_eq a (ObjTilePyramid b) = true <->
  grid_eq (tp_grid a) (tp_grid b) = true /\
  tp_tile_size a = tp_tile_size b /\
  tp_metatiling a = tp_metatiling b.
Proof.
  cbn. rewrite !andb_true_iff, !Z.eqb_eq. tauto.
Qed.

(** The dictionary of a constructed pyramid builds a pyramid again exactly
    when the grid's own dictionary does, with the same tile_size and
    metatiling. *)
Lemma from_dict_to_dict (grid : option GridArg) (tile_size metatiling : Z)
    (tp : TilePyramid) :
  TilePyramid_init ROUND GridDefinition_new grid tile_size metatiling = inr tp ->
  from_dict ROUND GridDefinition_new (to_dict grid_to_dict tp)
  = TilePyramid_init ROUND GridDefinition_new (Some (grid_to_dict (tp_grid tp))) tile_size metatiling.
Proof.
  intros H. destruct (init_metatiling _ _ _ _ _ _ _ H) as (Hm & Hts & _).
  unfold from_dict, to_dict. cbn. now rewrite Hm, Hts.
Qed.

(** C4. For a constructed pyramid tp whose grid survives its own dictionary
    round trip (GridDefinition(grid.to_dict()) == grid), from_dict(to_dict(tp))
    returns a pyramid that is == tp. *)
Theorem dict_roundtrip (grid : option GridArg) (tile_size metatiling : Z)
    (tp : TilePyramid) :
  TilePyramid_init ROUND GridDefinition_new grid tile_size metatiling = inr tp ->
  (exists g, GridDefinition_new (grid_to_dict (tp_grid tp)) = inr g /\
             grid_eq g (tp_grid tp) = true) ->
  exists tp', from_dict ROUND GridDefinition_new (to_dict grid_to_dict tp) = inr tp' /\
              TilePyramid_eq grid_eq tp' (ObjTilePyramid tp) = true.
Proof.
  intros H (g & Hg & Heq).
  rewrite (from_dict_to_dict _ _ _ _ H).
  destruct (init_inv _ _ _ _ _ _ _ H) as (ga & g0 & _ & _ & Hm & Htp).
  unfold TilePyramid_init. rewrite Hm. cbn [negb]. rewrite Hg. cbn [bind ret].
  eexists. split; [reflexivity|].
  apply TilePyramid_eq_iff. cbn. rewrite Htp. cbn.
  rewrite Htp in Heq. cbn in Heq. auto.
Qed.

(** The round trip of the pyramid needs the round trip of its grid. *)
Lemma dict_roundtrip_needs_grid (grid : option GridArg) (tile_size metatiling : Z)
    (tp tp' : TilePyramid) :
  TilePyramid_init ROUND GridDefinition_new grid tile_size metatiling = inr tp ->
  from_dict ROUND GridDefinition_new (to_dict grid_to_dict tp) = inr tp' ->
  TilePyramid_eq grid_eq tp' (ObjTilePyramid tp) = true ->
  exists g, GridDefinition_new (grid_to_dict (tp_grid tp)) = inr g /\
            grid_eq g (tp_grid tp) = true.
Proof.
  intros H Hfrom Heq. rewrite (from_dict_to_dict _ _ _ _ H) in Hfrom.
  destruct (init_inv _ _ _ _ _ _ _ Hfrom) as (ga & g & Hga & Hg & _ & Htp').
  injection Hga as <-. exists g. split; [exact Hg|].
  apply TilePyramid_eq_iff in Heq. destruct Heq as (Heq & _).
  rewrite Htp' in Heq. exact Heq.
Qed.

End Dictionaries.

(** *** Pixel sizes *)

Lemma Qpower_10_ge (n : Z) : 2 <= n -> (100 <= Qpower 10 n)%Q.
Proof.
  intros Hn. change (10%Q) with (inject_Z 10).
  rewrite <- Zpower_Qpower by lia.
  change 100%Q with (inject_Z 100). rewrite <- Zle_Qle.
  change 100 with (10 ^ 2). apply Z.pow_le_mono_r; lia.
Qed.

Lemma decimal_round_error (q : Q) (n : Z) :
  2 <= n -> (q - (1 # 200) <= decimal_round q n <= q + (1 # 200))%Q.
Proof.
  intros Hn. unfold decimal_round.
  pose proof (Qpower_10_ge n Hn) as HP.
  set (P := Qpower 10 n) in *.
  pose proof (round_half_even_error (q * P)) as [Hlo Hhi].
  set (r := inject_Z (round_half_even (q * P))) in *.
  assert (HP0 : (0 < P)%Q) by lra.
  split.
  - apply Qle_shift_div_l; [exact HP0|].
    setoid_replace ((q - (1 # 200)) * P)%Q with (q * P - (1 # 200) * P)%Q by ring.
    lra.
  - apply Qle_shift_div_r; [exact HP0|].
    setoid_replace ((q + (1 # 200)) * P)%Q with (q * P + (1 # 200) * P)%Q by ring.
    lra.
Qed.

(** Rounding a double between 1 and 2^22 to two or more decimals moves it
    by at most a hundredth. *)
Lemma py_round_near (x : Q) (n : Z) :
  2 <= n -> (1 <= x)%Q -> (x < 4194304)%Q ->
  (x - (1 # 100) <= py_round x n <= x + (1 # 100))%Q.
Proof.
  intros Hn Hlo Hhi. unfold py_round.
  destruct (Z.ltb_spec 323 n); [lra |].
  destruct (Z.ltb_spec n (-308)); [lia |].
  pose proof (decimal_round_error x n Hn) as [H1 H2].
  set (d := decimal_round x n) in *. clearbody d.
  pose proof (nearest_double_near d ltac:(lra) ltac:(lra)) as [H3 H4].
  split; lra.
Qed.

Lemma pixel_x_size_unfold (ROUND : Z) (tp : TilePyramid) (z mw tw : Z) :
  0 <= z -> mw <> 0 -> Z.abs mw <= 2 ^ 53 -> tw <> 0 -> Z.abs tw <= 2 ^ 53 ->
  matrix_width tp (PyInt z) = inr mw ->
  tile_width tp (PyInt z) = inr tw ->
  pixel_x_size ROUND tp (PyInt z)
  = inr (py_round
           (nearest_double
              (py_round (nearest_double (tp_x_size tp / inject_Z mw)) ROUND
               / inject_Z tw)) ROUND).
Proof.
  intros Hz Hmw Hmw' Htw Htw' Hw Hpx.
  unfold pixel_x_size, tile_x_size. rewrite Hw, Hpx.
  unfold validate_zoom. destruct (Z.ltb_spec z 0); [lia|]. cbn [bind ret].
  rewrite (float_div_int_exact _ mw Hmw Hmw'). cbn [bind ret].
  rewrite (float_div_int_exact _ tw Htw Htw'). reflexivity.
Qed.

Lemma pixel_y_size_unfold (ROUND : Z) (tp : TilePyramid) (z mh th : Z) :
  0 <= z -> mh <> 0 -> Z.abs mh <= 2 ^ 53 -> th <> 0 -> Z.abs th <= 2 ^ 53 ->
  matrix_height tp (PyInt z) = inr mh ->
  tile_height tp (PyInt z) = inr th ->
  pixel_y_size ROUND tp (PyInt z)
  = inr (py_round
           (nearest_double
              (py_round (nearest_double (tp_y_size tp / inject_Z mh)) ROUND
               / inject_Z th)) ROUND).
Proof.
  intros Hz Hmh Hmh' Hth Hth' Hh Hpx.
  unfold pixel_y_size, tile_y_size. rewrite Hh, Hpx.
  unfold validate_zoom. destruct (Z.ltb_spec z 0); [lia|]. cbn [bind ret].
  rewrite (float_div_int_exact _ mh Hmh Hmh'). cbn [bind ret].
  rewrite (float_div_int_exact _ th Hth Hth'). reflexivity.
Qed.

(** Rounding an integer to a non-negative number of decimals returns it. *)
Lemma decimal_round_integer (n ndigits : Z) :
  0 <= ndigits -> (decimal_round (inject_Z n) ndigits == inject_Z n)%Q.
Proof.
  intros Hd. unfold decimal_round.
  assert (HP : (0 < Qpower 10 ndigits)%Q) by (apply Qpower_0_lt; reflexivity).
  assert (E : (inject_Z n * Qpower 10 ndigits == inject_Z (n * 10 ^ ndigits))%Q).
  { rewrite inject_Z_mult, Zpower_Qpower by exact Hd. reflexivity. }
  rewrite (round_half_even_comp _ _ E), round_half_even_Z, <- E.
  field. intro Z0. rewrite Z0 in HP. exact (Qlt_irrefl _ HP).
Qed.

Lemma decimal_round_comp (q q' : Q) (n : Z) :
  (q == q')%Q -> decimal_round q n = decimal_round q' n.
Proof.
  intros E. unfold decimal_round.
  rewrite (round_half_even_comp (q * Qpower 10 n) (q' * Qpower 10 n));
    [reflexivity | rewrite E; reflexivity].
Qed.

(** A whole number up to 2^53 stays what it is when it is rounded to a
    non-negative number of decimals. *)
Lemma py_round_integer (x : Q) (n ndigits : Z) :
  0 <= ndigits -> Z.abs n <= 2 ^ 53 -> (x == inject_Z n)%Q ->
  (py_round x ndigits == inject_Z n)%Q.
Proof.
  intros Hd Hn E. unfold py_round.
  destruct (323 <? ndigits); [exact E |].
  destruct (Z.ltb_spec ndigits (-308)); [lia |].
  rewrite (decimal_round_comp x (inject_Z n) ndigits E).
  rewrite (nearest_double_comp _ _ (decimal_round_integer n ndigits Hd)).
  rewrite (nearest_double_int n Hn). reflexivity.
Qed.

(** The difference of two floats that is a whole number up to 2^53 is
    exact. *)
Lemma float_sub_integer (a b : Q) (n : Z) :
  Z.abs n <= 2 ^ 53 -> (a - b == inject_Z n)%Q -> float_sub a b = inject_Z n.
Proof.
  intros Hn E. unfold float_sub.
  rewrite (nearest_double_comp _ _ E). apply nearest_double_int. exact Hn.
Qed.

(** The distance to the nearest double, for a number of magnitude at most
    [B]: a relative 2^-53, or half the spacing 2^-1074 of the smallest
    doubles. *)
Lemma nearest_double_bound (x B : Q) :
  (- B <= x <= B)%Q ->
  (x - (B * pow2 (-53) + pow2 (-1075)) <= nearest_double x
   <= x + (B * pow2 (-53) + pow2 (-1075)))%Q.
Proof.
  intros [HB1 HB2].
  pose proof (pow2_pos (-53)) as H53. pose proof (pow2_pos (-1075)) as H1075.
  assert (HB : (0 <= B)%Q) by lra.
  assert (HBp : (0 <= B * pow2 (-53))%Q) by (apply Qmult_le_0_compat; lra).
  destruct (Qeq_dec x 0) as [E0 | Hx].
  { rewrite (nearest_double_zero x E0), E0. split; lra. }
  assert (Habs : (Qabs x <= B)%Q) by (apply Qabs_Qle_condition; split; lra).
  assert (Hr : ~ (Qred x == 0)%Q) by (rewrite Qred_correct; exact Hx).
  destruct (binade_spec (Qred x) Hr) as [Hb _].
  rewrite (Qabs_wd _ _ (Qred_correct x)) in Hb.
  pose proof (nearest_double_error x) as [H1 H2].
  assert (Hu : (pow2 (ulp_exponent (Qred x)) / 2 <= B * pow2 (-53) + pow2 (-1075))%Q).
  { unfold ulp_exponent.
    assert (E : (pow2 (Z.max (binade (Qred x)) (-1022) - 52) / 2
                 == pow2 (Z.max (binade (Qred x)) (-1022) - 53))%Q).
    { replace (Z.max (binade (Qred x)) (-1022) - 53)
        with (Z.max (binade (Qred x)) (-1022) - 52 - 1) by lia.
      rewrite (pow2_sub _ 1). reflexivity. }
    rewrite E. destruct (Z.max_spec (binade (Qred x)) (-1022)) as [[_ ->] | [_ ->]].
    - change (pow2 (-1022 - 53)) with (pow2 (-1075)). lra.
    - replace (binade (Qred x) - 53) with (binade (Qred x) + -53) by lia.
      rewrite pow2_add.
      assert ((pow2 (binade (Qred x)) * pow2 (-53) <= B * pow2 (-53))%Q)
        by (apply Qmult_le_compat_r; lra).
      lra. }
  set (u := (pow2 (ulp_exponent (Qred x)) / 2)%Q) in *. clearbody u.
  split; lra.
Qed.

Lemma Qpower_10_pos (n : Z) : (0 < Qpower 10 n)%Q.
Proof. apply Qpower_0_lt. reflexivity. Qed.

(** Rounding to [n] decimals moves a number by at most half a unit of the
    [n]-th decimal. *)
Lemma decimal_round_half_unit (q : Q) (n : Z) :
  (q - (1 # 2) / Qpower 10 n <= decimal_round q n <= q + (1 # 2) / Qpower 10 n)%Q.
Proof.
  unfold decimal_round. pose proof (Qpower_10_pos n) as HP.
  set (P := Qpower 10 n) in *.
  pose proof (round_half_even_error (q * P)) as [Hlo Hhi].
  set (r := inject_Z (round_half_even (q * P))) in *.
  assert (HP0 : ~ (P == 0)%Q) by (intro E; rewrite E in HP; exact (Qlt_irrefl _ HP)).
  split.
  - apply Qle_shift_div_l; [exact HP|].
    setoid_replace ((q - (1 # 2) / P) * P)%Q with (q * P - (1 # 2))%Q by (field; exact HP0).
    exact Hlo.
  - apply Qle_shift_div_r; [exact HP|].
    setoid_replace ((q + (1 # 2) / P) * P)%Q with (q * P + (1 # 2))%Q by (field; exact HP0).
    exact Hhi.
Qed.

(** A float operation followed by [round(_, n)], [n >= 0]: the result is
    within a relative 2^-51, a unit of the [n]-th decimal and 2^-1073 of
    the exact value [x], whose magnitude is at most [B]. *)
Lemma rounded_double_bound (x B : Q) (n : Z) :
  0 <= n -> (- B <= x <= B)%Q ->
  (x - (B * pow2 (-51) + / Qpower 10 n + pow2 (-1073))
   <= py_round (nearest_double x) n
   <= x + (B * pow2 (-51) + / Qpower 10 n + pow2 (-1073)))%Q.
Proof.
  intros Hn HB.
  pose proof (nearest_double_bound x B HB) as Ha.
  pose proof (pow2_pos (-1075)) as He.
  pose proof (Qpower_10_pos n) as HP.
  assert (HP' : (0 < / Qpower 10 n)%Q) by (apply Qinv_lt_0_compat; exact HP).
  assert (E73 : (pow2 (-1073) == 4 * pow2 (-1075))%Q).
  { change (-1073) with (-1075 + 2). rewrite pow2_add. change (pow2 2) with 4%Q. ring. }
  assert (HB0 : (0 <= B)%Q) by lra.
  change (pow2 (-51)) with (1 # 2251799813685248)%Q.
  change (pow2 (-53)) with (1 # 9007199254740992)%Q in *.
  rewrite E73. set (e := pow2 (-1075)) in *.
  set (a := nearest_double x) in *. clearbody a.
  unfold py_round. destruct (Z.ltb_spec 323 n); [split; lra |].
  destruct (Z.ltb_spec n (-308)); [lia |].
  pose proof (decimal_round_half_unit a n) as Hb.
  assert (Eh : ((1 # 2) / Qpower 10 n == (1 # 2) * / Qpower 10 n)%Q) by reflexivity.
  rewrite Eh in Hb. set (h := (/ Qpower 10 n)%Q) in *. clearbody h.
  set (b := decimal_round a n) in *. clearbody b.
  pose proof (nearest_double_bound b
                (B * (1 + (1 # 9007199254740992)) + e + (1 # 2) * h)
                ltac:(lra)) as Hc.
  change (pow2 (-53)) with (1 # 9007199254740992)%Q in Hc. fold e in Hc.
  set (c := nearest_double b) in *. clearbody c e.
  split; lra.
Qed.

Lemma irregular_extents (ROUND : Z) :
  0 <= ROUND ->
  forall tp, irregular_pyramid ROUND 2 = inr tp ->
  (tp_x_size tp == 806400)%Q /\ (tp_y_size tp == 412160)%Q.
Proof.
  intros HR tp H. injection H as <-.
  cbn [tp_x_size tp_y_size irregular_grid g_bounds b_left b_right b_top b_bottom].
  rewrite (float_sub_integer 948320 141920 806400) by (try reflexivity; lia).
  rewrite (float_sub_integer 502000 89840 412160) by (try reflexivity; lia).
  split; apply py_round_integer; (lia || reflexivity).
Qed.

Lemma irregular_conformal (ROUND : Z) :
  0 <= ROUND ->
  forall tp, irregular_pyramid ROUND 2 = inr tp -> conformal tp.
Proof.
  intros HR tp H. destruct (irregular_extents ROUND HR tp H) as [Hx Hy].
  injection H as <-. unfold conformal in *.
  cbn [tp_x_size tp_y_size] in *.
  cbn [tp_grid irregular_grid g_shape shape_width shape_height].
  rewrite Hx, Hy. reflexivity.
Qed.

(** C2 at the input of [test_irregular_grids].  The irregular grid is
    conformal (10 map units per pixel in both directions), yet with
    metatiling 2 and any ROUND of at least 2 decimals pixel_x_size(0) and
    pixel_y_size(0) differ, and pixel_x_size(0) is not 10: 315 and 161
    are odd, the matrices have 158 and 81 metatiles, and x_size / 158 / 512
    is about 9.968 while y_size / 81 / 512 is about 9.938. *)
Theorem irregular_pixel_sizes_differ (ROUND : Z) :
  2 <= ROUND ->
  exists tp px py,
    irregular_pyramid ROUND 2 = inr tp /\
    conformal tp /\
    pixel_x_size ROUND tp (PyInt 0) = inr px /\
    pixel_y_size ROUND tp (PyInt 0) = inr py /\
    (py < px)%Q /\ (px < 10)%Q.
Proof.
  intros HR.
  destruct (irregular_extents ROUND ltac:(lia) _ eq_refl) as [Hxs Hys].
  eexists. eexists. eexists.
  split; [reflexivity|].
  split; [apply (irregular_conformal ROUND); [lia | reflexivity]|].
  split; [apply (pixel_x_size_unfold ROUND _ 0 158 512); try lia; reflexivity|].
  split; [apply (pixel_y_size_unfold ROUND _ 0 81 512); try lia; reflexivity|].
  set (xs := tp_x_size _) in *. set (ys := tp_y_size _) in *. clearbody xs ys.
  change (inject_Z 158) with 158%Q. change (inject_Z 81) with 81%Q.
  change (inject_Z 512) with 512%Q.
  assert (Hqx : (xs / 158 == 806400 * (1 # 158))%Q) by (rewrite Hxs; reflexivity).
  assert (Hqy : (ys / 81 == 412160 * (1 # 81))%Q) by (rewrite Hys; reflexivity).
  set (qx := (xs / 158)%Q) in *. set (qy := (ys / 81)%Q) in *. clearbody qx qy.
  pose proof (nearest_double_near qx ltac:(lra) ltac:(lra)) as Hx1.
  pose proof (nearest_double_near qy ltac:(lra) ltac:(lra)) as Hy1.
  set (dx := nearest_double qx) in *. set (dy := nearest_double qy) in *.
  clearbody dx dy.
  pose proof (py_round_near dx ROUND HR ltac:(lra) ltac:(lra)) as Hx2.
  pose proof (py_round_near dy ROUND HR ltac:(lra) ltac:(lra)) as Hy2.
  set (tx := py_round dx ROUND) in *. set (ty := py_round dy ROUND) in *.
  clearbody tx ty.
  assert (Hrx : (tx / 512 == tx * (1 # 512))%Q) by reflexivity.
  assert (Hry : (ty / 512 == ty * (1 # 512))%Q) by reflexivity.
  set (rx := (tx / 512)%Q) in *. set (ry := (ty / 512)%Q) in *. clearbody rx ry.
  pose proof (nearest_double_near rx ltac:(lra) ltac:(lra)) as Hx3.
  pose proof (nearest_double_near ry ltac:(lra) ltac:(lra)) as Hy3.
  set (ex := nearest_double rx) in *. set (ey := nearest_double ry) in *.
  clearbody ex ey.
  pose proof (py_round_near ex ROUND HR ltac:(lra) ltac:(lra)) as Hx4.
  pose proof (py_round_near ey ROUND HR ltac:(lra) ltac:(lra)) as Hy4.
  split; lra.
Qed.

Lemma irregular_pixel_sizes_at_round_20 :
  exists tp px py,
    irregular_pyramid 20 2 = inr tp /\
    conformal tp /\
    pixel_x_size 20 tp (PyInt 0) = inr px /\
    pixel_y_size 20 tp (PyInt 0) = inr py /\
    (py < px)%Q /\ (px < 10)%Q.
Proof. exact (irregular_pixel_sizes_differ 20 ltac:(lia)). Defined.

(** The values themselves, with ROUND = 20: the doubles that Python prints
    as 9.968354430379748 and 9.938271604938272. *)
Example irregular_pixel_sizes_values :
  exists tp px py,
    irregular_pyramid 20 2 = inr tp /\
    pixel_x_size 20 tp (PyInt 0) = inr px /\
    pixel_y_size 20 tp (PyInt 0) = inr py /\
    px = (175365145695919 # 17592186044416)%Q /\
    py = (1398687384272087 # 140737488355328)%Q.
Proof.
  eexists. eexists. eexists.
  split; [reflexivity|]. split; [vm_compute; reflexivity|].
  split; [vm_compute; reflexivity|]. split; reflexivity.
Qed.

(** Without metatiling the same grid has 10 map units per pixel in both
    directions, as the test expects. *)
Example irregular_pixel_sizes_metatiling_1 :
  exists tp px py,
    irregular_pyramid 20 1 = inr tp /\
    pixel_x_size 20 tp (PyInt 0) = inr px /\
    pixel_y_size 20 tp (PyInt 0) = inr py /\
    (px == 10)%Q /\ (py == 10)%Q.
Proof.
  eexists. eexists. eexists.
  split; [reflexivity|]. split; [vm_compute; reflexivity|].
  split; [vm_compute; reflexivity|]. split; reflexivity.
Qed.

(** *** The round trip on the stand-ins for the grid *)

Lemma dict_roundtrip_witness :
  exists tp',
    from_dict 20 finished_grid (to_dict grid_fields unit_pyramid) = inr tp' /\
    TilePyramid_eq same_grid tp' (ObjTilePyramid unit_pyramid) = true.
Proof.
  apply (dict_roundtrip 20 GridDefinition finished_grid grid_fields same_grid
           (Some unit_grid) 256 1 unit_pyramid eq_refl).
  exists unit_grid. split; reflexivity.
Defined.

Example unit_pyramid_repr :
  TilePyramid_repr grid_label unit_pyramid
  = "TilePyramid(custom:EPSG:4326, tile_size=256, metatiling=1)".
Proof. reflexivity. Qed.

(** ** Further properties of the sizing methods *)

(** Integer facts about the ceiling [c] of [a / m], as characterised by
    [spec_matrix_size_ceiling]. *)
Lemma ceiling_doubles (a m c c' : Z) :
  0 < m ->
  (c - 1) * m < a <= c * m ->
  (c' - 1) * m < 2 * a <= c' * m ->
  Z.max 1 c <= Z.max 1 c' <= 2 * Z.max 1 c.
Proof.
  intros Hm Hc Hc'.
  destruct (Z.le_gt_cases 0 a) as [Ha | Ha].
  - assert (0 <= c) by nia. assert (c <= c') by nia. assert (c' <= 2 * c) by nia. lia.
  - assert (c <= 0) by nia. assert (c' <= 0) by nia. lia.
Qed.

Lemma spec_matrix_size_succ (cells z m : Z) :
  0 < m -> 0 <= z ->
  spec_matrix_size cells z m <= spec_matrix_size cells (z + 1) m
  <= 2 * spec_matrix_size cells z m.
Proof.
  intros Hm Hz.
  destruct (spec_matrix_size_ceiling cells z m Hm) as (c & Hc & _ & ->).
  destruct (spec_matrix_size_ceiling cells (z + 1) m Hm) as (c' & Hc' & _ & ->).
  rewrite Z.pow_add_r in Hc' by lia. change (2 ^ 1) with 2 in Hc'.
  apply (ceiling_doubles (cells * 2 ^ z) m); [exact Hm | exact Hc | lia].
Qed.

Lemma spec_matrix_size_exact (cells z m : Z) :
  0 < m -> 1 <= cells -> 0 <= z -> (m | cells * 2 ^ z) ->
  spec_matrix_size cells z m = cells * 2 ^ z / m.
Proof.
  intros Hm Hcells Hz (k & Hk).
  destruct (spec_matrix_size_ceiling cells z m Hm) as (c & Hc & _ & ->).
  assert (0 < 2 ^ z) by (apply Z.pow_pos_nonneg; lia).
  assert (0 < cells * 2 ^ z) by nia.
  rewrite Hk in *. rewrite Z.div_mul by lia.
  assert (c = k) by nia. subst c. nia.
Qed.

(** Every allowed metatiling divides [2^z] from zoom 4 on. *)
Lemma metatiling_divides_pow2 (m z : Z) :
  m = 1 \/ m = 2 \/ m = 4 \/ m = 8 \/ m = 16 -> 4 <= z -> (m | 2 ^ z).
Proof.
  intros Hm Hz. replace z with (4 + (z - 4)) by lia.
  rewrite Z.pow_add_r by lia. change (2 ^ 4) with 16.
  destruct Hm as [-> | [-> | [-> | [-> | ->]]]].
  - exists (16 * 2 ^ (z - 4)). lia.
  - exists (8 * 2 ^ (z - 4)). lia.
  - exists (4 * 2 ^ (z - 4)). lia.
  - exists (2 * 2 ^ (z - 4)). lia.
  - exists (2 ^ (z - 4)). lia.
Qed.

Lemma fits_double_lower (cells z m : Z) :
  0 <= z -> fits_double cells (z + 1) m -> fits_double cells z m.
Proof.
  intros Hz [Hc H]. split; [exact Hc |].
  rewrite Z.pow_add_r in H by lia. change (2 ^ 1) with 2 in H.
  assert (0 < 2 ^ z) by (apply Z.pow_pos_nonneg; lia). nia.
Qed.

Section ConstructedSizes.

Variable ROUND : Z.
Variable GridArg : Type.
Variable GridDefinition_new : GridArg -> result GridDefinition.
Variable grid : option GridArg.
Variables tile_size metatiling : Z.
Variable tp : TilePyramid.
Hypothesis constructed :
  TilePyramid_init ROUND GridDefinition_new grid tile_size metatiling = inr tp.

Lemma constructed_metatiling_cases :
  tp_metatiling tp = 1 \/ tp_metatiling tp = 2 \/ tp_metatiling tp = 4 \/
  tp_metatiling tp = 8 \/ tp_metatiling tp = 16.
Proof.
  destruct (init_metatiling _ _ _ _ _ _ _ constructed) as (-> & _ & H). exact H.
Qed.

(** X1. Going one zoom level up never shrinks the matrix and at most
    doubles it, in both directions, as long as the float quotient of the
    higher zoom is exact. *)
Theorem matrix_size_grows_with_zoom (z : Z) :
  0 <= z ->
  (fits_double (shape_width (g_shape (tp_grid tp))) (z + 1) (tp_metatiling tp) ->
   exists w w',
     matrix_width tp (PyInt z) = inr w /\
     matrix_width tp (PyInt (z + 1)) = inr w' /\
     w <= w' <= 2 * w) /\
  (fits_double (shape_height (g_shape (tp_grid tp))) (z + 1) (tp_metatiling tp) ->
   exists h h',
     matrix_height tp (PyInt z) = inr h /\
     matrix_height tp (PyInt (z + 1)) = inr h' /\
     h <= h' <= 2 * h).
Proof.
  intros Hz. pose proof constructed_metatiling_cases as Hm.
  assert (Hpos : 0 < tp_metatiling tp) by lia.
  pose proof (constructed_metatiling_allowed _ _ _ _ _ _ _ constructed) as Hok.
  split; intros Hfit; pose proof (fits_double_lower _ _ _ Hz Hfit) as Hfit0;
    do 2 eexists.
  - split; [apply (matrix_width_valid tp Hok z Hz Hfit0)|].
    split; [apply (matrix_width_valid tp Hok (z + 1)); [lia | exact Hfit]|].
    apply spec_matrix_size_succ; assumption.
  - split; [apply (matrix_height_valid tp Hok z Hz Hfit0)|].
    split; [apply (matrix_height_valid tp Hok (z + 1)); [lia | exact Hfit]|].
    apply spec_matrix_size_succ; assumption.
Qed.

(** X2. When metatiling divides the scaled width (height) of the base
    matrix and the float quotient is exact, the matrix has exactly
    width * 2^z / metatiling columns (rows): no rounding up and no floor of
    1.  From zoom 4 on metatiling always divides. *)
Theorem matrix_size_exact_when_divisible (z : Z) :
  0 <= z ->
  (1 <= shape_width (g_shape (tp_grid tp)) ->
   fits_double (shape_width (g_shape (tp_grid tp))) z (tp_metatiling tp) ->
   (tp_metatiling tp | shape_width (g_shape (tp_grid tp)) * 2 ^ z) ->
   matrix_width tp (PyInt z)
   = inr (shape_width (g_shape (tp_grid tp)) * 2 ^ z / tp_metatiling tp)) /\
  (1 <= shape_height (g_shape (tp_grid tp)) ->
   fits_double (shape_height (g_shape (tp_grid tp))) z (tp_metatiling tp) ->
   (tp_metatiling tp | shape_height (g_shape (tp_grid tp)) * 2 ^ z) ->
   matrix_height tp (PyInt z)
   = inr (shape_height (g_shape (tp_grid tp)) * 2 ^ z / tp_metatiling tp)) /\
  (4 <= z ->
   (tp_metatiling tp | shape_width (g_shape (tp_grid tp)) * 2 ^ z) /\
   (tp_metatiling tp | shape_height (g_shape (tp_grid tp)) * 2 ^ z)).
Proof.
  intros Hz. pose proof constructed_metatiling_cases as Hm.
  assert (Hpos : 0 < tp_metatiling tp) by lia.
  pose proof (constructed_metatiling_allowed _ _ _ _ _ _ _ constructed) as Hok.
  split; [|split].
  - intros Hw Hfit Hdiv. rewrite (matrix_width_valid tp Hok z Hz Hfit).
    now rewrite spec_matrix_size_exact.
  - intros Hh Hfit Hdiv. rewrite (matrix_height_valid tp Hok z Hz Hfit).
    now rewrite spec_matrix_size_exact.
  - intros Hz4. split; apply Z.divide_mul_r; now apply metatiling_divides_pow2.
Qed.

End ConstructedSizes.

(** The pixel width of a metatile against the number of metatiles, over
    integers: [a] base tiles of [ts] pixels, [m] base tiles per metatile. *)
Lemma metatiles_cover (a m ts c : Z) :
  0 < m -> 1 <= ts -> 1 <= a ->
  (c - 1) * m < a <= c * m ->
  ts * a <= Z.min (ts * m) (ts * a) * Z.max 1 c < ts * a + ts * m.
Proof.
  intros Hm Hts Ha Hc.
  assert (1 <= c) by nia.
  rewrite (Z.max_r 1 c) by lia.
  destruct (Z.le_gt_cases m a) as [Hma | Hma].
  - rewrite Z.min_l by nia. nia.
  - assert (c = 1) by nia. subst c. rewrite Z.min_r by nia. nia.
Qed.

Lemma capped_single_column (a m ts c : Z) :
  0 < m -> 1 <= ts -> 1 <= a ->
  (c - 1) * m < a <= c * m ->
  (Z.min (ts * m) (ts * a) < ts * m -> Z.max 1 c = 1 /\ Z.min (ts * m) (ts * a) = ts * a) /\
  (2 <= Z.max 1 c -> Z.min (ts * m) (ts * a) = ts * m) /\
  (m <= a -> Z.min (ts * m) (ts * a) = ts * m).
Proof.
  intros Hm Hts Ha Hc. split; [|split].
  - intros Hcap. assert (a < m) by nia. assert (c = 1) by nia. split; nia.
  - intros Hcols. assert (m < a) by nia. nia.
  - intros Hma. nia.
Qed.

Section ConstructedPixels.

Variable ROUND : Z.
Variable GridArg : Type.
Variable GridDefinition_new : GridArg -> result GridDefinition.
Variable grid : option GridArg.
Variables tile_size metatiling : Z.
Variable tp : TilePyramid.
Hypothesis constructed :
  TilePyramid_init ROUND GridDefinition_new grid tile_size metatiling = inr tp.
Hypothesis tile_size_positive : 1 <= tp_tile_size tp.

Lemma constructed_metatile_size :
  tp_metatile_size tp = tp_tile_size tp * tp_metatiling tp.
Proof.
  destruct (init_inv _ _ _ _ _ _ _ constructed) as (ga & g & _ & _ & _ & ->).
  reflexivity.
Qed.

(** The matrix size and the pixel size of a metatile in one direction, over
    [cells] base tiles. *)
Lemma direction_sizes (cells z : Z) :
  1 <= cells -> 0 <= z ->
  exists c,
    (c - 1) * tp_metatiling tp < cells * 2 ^ z <= c * tp_metatiling tp /\
    0 < tp_metatiling tp /\
    1 <= cells * 2 ^ z /\
    spec_matrix_size cells z (tp_metatiling tp) = Z.max 1 c /\
    spec_tile_pixels (tp_tile_size tp * tp_metatiling tp) (tp_tile_size tp) cells z
    = Z.min (tp_tile_size tp * tp_metatiling tp) (tp_tile_size tp * (cells * 2 ^ z)).
Proof.
  intros Hcells Hz.
  pose proof (constructed_metatiling_cases _ _ _ _ _ _ _ constructed) as Hm.
  assert (Hpos : 0 < tp_metatiling tp) by lia.
  assert (H2 : 0 < 2 ^ z) by (apply Z.pow_pos_nonneg; lia).
  destruct (spec_matrix_size_ceiling cells z (tp_metatiling tp) Hpos) as (c & Hc & _ & Hsize).
  exists c. split; [exact Hc|]. split; [exact Hpos|]. split; [nia|]. split; [exact Hsize|].
  unfold spec_tile_pixels. f_equal. ring.
Qed.

(** X3. With a positive tile size and base shape, and an exact float
    quotient, the metatiles of one row cover the pixel extent of the whole
    matrix and overshoot it by less than one metatile: 2^z * tile_size *
    width <= tile_width(z) * matrix_width(z) < 2^z * tile_size * width +
    metatile_size; likewise for the metatiles of one column and the
    height. *)
Theorem metatile_row_covers_matrix (z : Z) :
  0 <= z ->
  (1 <= shape_width (g_shape (tp_grid tp)) ->
   fits_double (shape_width (g_shape (tp_grid tp))) z (tp_metatiling tp) ->
   exists mw tw,
     matrix_width tp (PyInt z) = inr mw /\
     tile_width tp (PyInt z) = inr tw /\
     2 ^ z * tp_tile_size tp * shape_width (g_shape (tp_grid tp)) <= tw * mw /\
     tw * mw < 2 ^ z * tp_tile_size tp * shape_width (g_shape (tp_grid tp))
               + tp_metatile_size tp) /\
  (1 <= shape_height (g_shape (tp_grid tp)) ->
   fits_double (shape_height (g_shape (tp_grid tp))) z (tp_metatiling tp) ->
   exists mh th,
     matrix_height tp (PyInt z) = inr mh /\
     tile_height tp (PyInt z) = inr th /\
     2 ^ z * tp_tile_size tp * shape_height (g_shape (tp_grid tp)) <= th * mh /\
     th * mh < 2 ^ z * tp_tile_size tp * shape_height (g_shape (tp_grid tp))
               + tp_metatile_size tp).
Proof.
  intros Hz.
  pose proof (constructed_metatiling_allowed _ _ _ _ _ _ _ constructed) as Hok.
  pose proof constructed_metatile_size as Hms.
  split; intros Hcells Hfit;
    destruct (direction_sizes _ z Hcells Hz) as (c & Hc & Hm & Ha & Hsize & Hpix);
    pose proof (metatiles_cover _ _ (tp_tile_size tp) c Hm tile_size_positive Ha Hc);
    do 2 eexists.
  - split; [apply (matrix_width_valid tp Hok z Hz Hfit)|].
    split; [apply (tile_width_valid tp z Hz)|].
    rewrite Hsize, Hpix, Hms. lia.
  - split; [apply (matrix_height_valid tp Hok z Hz Hfit)|].
    split; [apply (tile_height_valid tp z Hz)|].
    rewrite Hsize, Hpix, Hms. lia.
Qed.

(** X4. With an exact float quotient, tile_width is capped below
    metatile_size only while the matrix is a single column, and then it is
    the pixel width of the whole matrix; as soon as the matrix has two
    columns, or at least metatiling base tiles across, tile_width is the
    full metatile_size.  Likewise for tile_height and the rows. *)
Theorem tile_width_capped_only_in_single_column (z : Z) :
  0 <= z ->
  (1 <= shape_width (g_shape (tp_grid tp)) ->
   fits_double (shape_width (g_shape (tp_grid tp))) z (tp_metatiling tp) ->
   exists mw tw,
     matrix_width tp (PyInt z) = inr mw /\
     tile_width tp (PyInt z) = inr tw /\
     (tw < tp_metatile_size tp ->
        mw = 1 /\ tw = 2 ^ z * tp_tile_size tp * shape_width (g_shape (tp_grid tp))) /\
     (2 <= mw -> tw = tp_metatile_size tp) /\
     (tp_metatiling tp <= shape_width (g_shape (tp_grid tp)) * 2 ^ z ->
        tw = tp_metatile_size tp)) /\
  (1 <= shape_height (g_shape (tp_grid tp)) ->
   fits_double (shape_height (g_shape (tp_grid tp))) z (tp_metatiling tp) ->
   exists mh th,
     matrix_height tp (PyInt z) = inr mh /\
     tile_height tp (PyInt z) = inr th /\
     (th < tp_metatile_size tp ->
        mh = 1 /\ th = 2 ^ z * tp_tile_size tp * shape_height (g_shape (tp_grid tp))) /\
     (2 <= mh -> th = tp_metatile_size tp) /\
     (tp_metatiling tp <= shape_height (g_shape (tp_grid tp)) * 2 ^ z ->
        th = tp_metatile_size tp)).
Proof.
  intros Hz.
  pose proof (constructed_metatiling_allowed _ _ _ _ _ _ _ constructed) as Hok.
  pose proof constructed_metatile_size as Hms.
  split; intros Hcells Hfit;
    destruct (direction_sizes _ z Hcells Hz) as (c & Hc & Hm & Ha & Hsize & Hpix);
    destruct (capped_single_column _ _ (tp_tile_size tp) c Hm tile_size_positive Ha Hc)
      as (Hcap & Hcols & Hwide);
    do 2 eexists.
  - split; [apply (matrix_width_valid tp Hok z Hz Hfit)|].
    split; [apply (tile_width_valid tp z Hz)|].
    rewrite Hsize, Hpix, Hms. split; [|split].
    + intros H. destruct (Hcap H) as (E1 & E2). rewrite E1, E2. split; [reflexivity | ring].
    + exact Hcols.
    + exact Hwide.
  - split; [apply (matrix_height_valid tp Hok z Hz Hfit)|].
    split; [apply (tile_height_valid tp z Hz)|].
    rewrite Hsize, Hpix, Hms. split; [|split].
    + intros H. destruct (Hcap H) as (E1 & E2). rewrite E1, E2. split; [reflexivity | ring].
    + exact Hcols.
    + exact Hwide.
Qed.

End ConstructedPixels.

(** ** Further properties of the sizes in map units *)

Lemma inject_Z_pos (n : Z) : 1 <= n -> (0 < inject_Z n)%Q.
Proof.
  intros H. change 0%Q with (inject_Z 0). rewrite <- Zlt_Qlt. lia.
Qed.

(** A matrix size is between 1 and the scaled cell count. *)
Lemma spec_matrix_size_bounds (cells z m : Z) :
  0 < m -> 0 <= z ->
  1 <= spec_matrix_size cells z m <= Z.max 1 (Z.abs cells * 2 ^ z).
Proof.
  intros Hm Hz.
  destruct (spec_matrix_size_ceiling cells z m Hm) as (c & Hc & _ & ->).
  assert (0 < 2 ^ z) by (apply Z.pow_pos_nonneg; lia).
  assert (cells * 2 ^ z <= Z.abs cells * 2 ^ z) by nia.
  destruct (Z.le_gt_cases c 1); [lia |].
  assert (c <= cells * 2 ^ z) by nia. lia.
Qed.

(** A rounded float quotient times its divisor is the dividend, up to a
    relative 2^-51 and, per part, a unit of the last decimal and 2^-1073. *)
Lemma rounded_quotient_spans (total : Q) (parts n : Z) :
  1 <= parts -> 0 <= n ->
  (Qabs (py_round (nearest_double (total / inject_Z parts)) n * inject_Z parts - total)
   <= Qabs total * pow2 (-51) + inject_Z parts * (/ Qpower 10 n + pow2 (-1073)))%Q.
Proof.
  intros Hparts Hn. pose proof (inject_Z_pos parts Hparts) as Hpos.
  assert (Hone : (1 <= inject_Z parts)%Q)
    by (change 1%Q with (inject_Z 1); rewrite <- Zle_Qle; exact Hparts).
  set (P := inject_Z parts) in *. clearbody P.
  set (B := (Qabs total / P)%Q).
  assert (HB : (- B <= total / P <= B)%Q).
  { apply Qabs_Qle_condition. unfold B, Qdiv. rewrite Qabs_Qmult.
    rewrite (Qabs_pos (/ P)) by (apply Qlt_le_weak, Qinv_lt_0_compat; exact Hpos).
    apply Qle_refl. }
  destruct (rounded_double_bound (total / P) B n Hn HB) as [Hlo Hhi].
  set (t := py_round (nearest_double (total / P)) n) in *. clearbody t.
  set (e := (/ Qpower 10 n + pow2 (-1073))%Q) in *.
  assert (E1 : (total / P * P == total)%Q) by (field; lra).
  assert (E2 : (B * pow2 (-51) * P == Qabs total * pow2 (-51))%Q)
    by (unfold B; field; lra).
  apply Qabs_Qle_condition.
  assert (H1 : ((total / P - (B * pow2 (-51) + e)) * P <= t * P)%Q).
  { apply Qmult_le_compat_r; [| lra].
    unfold e. setoid_replace (B * pow2 (-51) + (/ Qpower 10 n + pow2 (-1073)))%Q
      with (B * pow2 (-51) + / Qpower 10 n + pow2 (-1073))%Q by ring. exact Hlo. }
  assert (H2 : (t * P <= (total / P + (B * pow2 (-51) + e)) * P)%Q).
  { apply Qmult_le_compat_r; [| lra].
    unfold e. setoid_replace (B * pow2 (-51) + (/ Qpower 10 n + pow2 (-1073)))%Q
      with (B * pow2 (-51) + / Qpower 10 n + pow2 (-1073))%Q by ring. exact Hhi. }
  setoid_replace ((total / P - (B * pow2 (-51) + e)) * P)%Q
    with (total / P * P - B * pow2 (-51) * P - e * P)%Q in H1 by ring.
  setoid_replace ((total / P + (B * pow2 (-51) + e)) * P)%Q
    with (total / P * P + B * pow2 (-51) * P + e * P)%Q in H2 by ring.
  rewrite E1, E2 in H1, H2.
  set (A := (Qabs total * pow2 (-51))%Q) in *. clearbody A e.
  split; lra.
Qed.

Section ConstructedUnits.

Variable ROUND : Z.
Variable GridArg : Type.
Variable GridDefinition_new : GridArg -> result GridDefinition.
Variable grid : option GridArg.
Variables tile_size metatiling : Z.
Variable tp : TilePyramid.
Hypothesis constructed :
  TilePyramid_init ROUND GridDefinition_new grid tile_size metatiling = inr tp.

(** While the scaled cell count is below 2^53 the matrix size is a double,
    and dividing by it is a division by that number. *)
Lemma small_matrix_width (z : Z) :
  0 <= z -> Z.abs (shape_width (g_shape (tp_grid tp))) * 2 ^ z < 2 ^ 53 ->
  exists mw,
    matrix_width tp (PyInt z) = inr mw /\ 1 <= mw /\ Z.abs mw <= 2 ^ 53 /\
    mw = spec_matrix_size (shape_width (g_shape (tp_grid tp))) z (tp_metatiling tp).
Proof.
  intros Hz Hsmall.
  pose proof (constructed_metatiling_allowed _ _ _ _ _ _ _ constructed) as Hok.
  pose proof (constructed_metatiling_pos _ _ _ _ _ _ _ constructed) as Hpos.
  pose proof (spec_matrix_size_bounds (shape_width (g_shape (tp_grid tp))) z _ Hpos Hz).
  eexists. split; [apply (matrix_width_valid tp Hok z Hz); now apply fits_double_small |].
  split; [lia |]. split; [lia | reflexivity].
Qed.

Lemma small_matrix_height (z : Z) :
  0 <= z -> Z.abs (shape_height (g_shape (tp_grid tp))) * 2 ^ z < 2 ^ 53 ->
  exists mh,
    matrix_height tp (PyInt z) = inr mh /\ 1 <= mh /\ Z.abs mh <= 2 ^ 53 /\
    mh = spec_matrix_size (shape_height (g_shape (tp_grid tp))) z (tp_metatiling tp).
Proof.
  intros Hz Hsmall.
  pose proof (constructed_metatiling_allowed _ _ _ _ _ _ _ constructed) as Hok.
  pose proof (constructed_metatiling_pos _ _ _ _ _ _ _ constructed) as Hpos.
  pose proof (spec_matrix_size_bounds (shape_height (g_shape (tp_grid tp))) z _ Hpos Hz).
  eexists. split; [apply (matrix_height_valid tp Hok z Hz); now apply fits_double_small |].
  split; [lia |]. split; [lia | reflexivity].
Qed.

Lemma tile_x_size_unfold (z mw : Z) :
  0 <= z -> mw <> 0 -> Z.abs mw <= 2 ^ 53 ->
  matrix_width tp (PyInt z) = inr mw ->
  tile_x_size ROUND tp (PyInt z)
  = inr (py_round (nearest_double (tp_x_size tp / inject_Z mw)) ROUND).
Proof.
  intros Hz Hmw Hmw' Hw. unfold tile_x_size. rewrite Hw.
  unfold validate_zoom. destruct (Z.ltb_spec z 0); [lia|]. cbn [bind ret].
  rewrite (float_div_int_exact _ mw Hmw Hmw'). reflexivity.
Qed.

Lemma tile_y_size_unfold (z mh : Z) :
  0 <= z -> mh <> 0 -> Z.abs mh <= 2 ^ 53 ->
  matrix_height tp (PyInt z) = inr mh ->
  tile_y_size ROUND tp (PyInt z)
  = inr (py_round (nearest_double (tp_y_size tp / inject_Z mh)) ROUND).
Proof.
  intros Hz Hmh Hmh' Hh. unfold tile_y_size. rewrite Hh.
  unfold validate_zoom. destruct (Z.ltb_spec z 0); [lia|]. cbn [bind ret].
  rewrite (float_div_int_exact _ mh Hmh Hmh'). reflexivity.
Qed.

(** X5. The tiles of one row span the width of the grid up to rounding.
    At a zoom at which the scaled base width is below 2^53, with ROUND >= 0
    and a grid width within the range of the doubles, tile_x_size(z) *
    matrix_width(z) differs from x_size by at most a relative 2^-51 of
    x_size plus, per column, one unit of the ROUND-th decimal and 2^-1073:
    the error of one float division and one rounding.  Likewise for
    tile_y_size, matrix_height and y_size. *)
Theorem tile_sizes_span_the_grid (z : Z) :
  0 <= z -> 0 <= ROUND ->
  (Z.abs (shape_width (g_shape (tp_grid tp))) * 2 ^ z < 2 ^ 53 ->
   finite_difference (tp_right tp) (tp_left tp) ->
   exists mw tx,
     matrix_width tp (PyInt z) = inr mw /\
     tile_x_size ROUND tp (PyInt z) = inr tx /\
     (Qabs (tx * inject_Z mw - tp_x_size tp)
      <= Qabs (tp_x_size tp) * pow2 (-51)
         + inject_Z mw * (/ Qpower 10 ROUND + pow2 (-1073)))%Q) /\
  (Z.abs (shape_height (g_shape (tp_grid tp))) * 2 ^ z < 2 ^ 53 ->
   finite_difference (tp_top tp) (tp_bottom tp) ->
   exists mh ty,
     matrix_height tp (PyInt z) = inr mh /\
     tile_y_size ROUND tp (PyInt z) = inr ty /\
     (Qabs (ty * inject_Z mh - tp_y_size tp)
      <= Qabs (tp_y_size tp) * pow2 (-51)
         + inject_Z mh * (/ Qpower 10 ROUND + pow2 (-1073)))%Q).
Proof.
  intros Hz HR. split; intros Hsmall _.
  - destruct (small_matrix_width z Hz Hsmall) as (mw & Hw & Hmw & Hmw' & _).
    exists mw. eexists. split; [exact Hw |].
    split; [exact (tile_x_size_unfold z mw Hz ltac:(lia) Hmw' Hw) |].
    apply rounded_quotient_spans; assumption.
  - destruct (small_matrix_height z Hz Hsmall) as (mh & Hh & Hmh & Hmh' & _).
    exists mh. eexists. split; [exact Hh |].
    split; [exact (tile_y_size_unfold z mh Hz ltac:(lia) Hmh' Hh) |].
    apply rounded_quotient_spans; assumption.
Qed.

(** X6. On a constructed pyramid, with ROUND >= 0 (round can raise
    OverflowError for a negative number of digits only), at a zoom z >= 0
    at which the scaled base width (height) is below 2^53: tile_x_size
    (tile_y_size) returns, the matrix having at least one column (row);
    pixel_x_size (pixel_y_size) divides by the pixel size of a tile, raises
    ZeroDivisionError when tile_size is 0, which the constructor accepts,
    and returns when the base width (height) is positive and the metatile
    has between 1 and 2^53 pixels. *)
Theorem sizes_in_map_units_return (z : Z) :
  0 <= z -> 0 <= ROUND ->
  (Z.abs (shape_width (g_shape (tp_grid tp))) * 2 ^ z < 2 ^ 53 ->
   (exists tx, tile_x_size ROUND tp (PyInt z) = inr tx) /\
   (tp_tile_size tp = 0 -> pixel_x_size ROUND tp (PyInt z) = inl ZeroDivisionError) /\
   (1 <= tp_tile_size tp -> tp_tile_size tp * tp_metatiling tp <= 2 ^ 53 ->
    1 <= shape_width (g_shape (tp_grid tp)) ->
    exists px, pixel_x_size ROUND tp (PyInt z) = inr px)) /\
  (Z.abs (shape_height (g_shape (tp_grid tp))) * 2 ^ z < 2 ^ 53 ->
   (exists ty, tile_y_size ROUND tp (PyInt z) = inr ty) /\
   (tp_tile_size tp = 0 -> pixel_y_size ROUND tp (PyInt z) = inl ZeroDivisionError) /\
   (1 <= tp_tile_size tp -> tp_tile_size tp * tp_metatiling tp <= 2 ^ 53 ->
    1 <= shape_height (g_shape (tp_grid tp)) ->
    exists py, pixel_y_size ROUND tp (PyInt z) = inr py)).
Proof.
  intros Hz _.
  pose proof (constructed_metatiling_pos _ _ _ _ _ _ _ constructed) as Hpos.
  assert (H2 : 0 < 2 ^ z) by (apply Z.pow_pos_nonneg; lia).
  split; intros Hsmall.
  - destruct (small_matrix_width z Hz Hsmall) as (mw & Hw & Hmw & Hmw' & _).
    assert (Htx := tile_x_size_unfold z mw Hz ltac:(lia) Hmw' Hw).
    split; [eexists; exact Htx |]. split.
    + intros Hts. unfold pixel_x_size.
      rewrite Htx, (tile_width_valid tp z Hz).
      unfold validate_zoom, spec_tile_pixels. destruct (Z.ltb_spec z 0); [lia|].
      rewrite Hts, !Z.mul_0_l, !Z.mul_0_r, !Z.mul_0_l. reflexivity.
    + intros Hts Hmeta Hwidth. pose proof (tile_width_valid tp z Hz) as Htw.
      set (tw := spec_tile_pixels _ _ _ _) in Htw.
      assert (1 <= tw <= 2 ^ 53) by (unfold tw, spec_tile_pixels; nia).
      eexists.
      apply (pixel_x_size_unfold ROUND tp z mw tw Hz); [lia | exact Hmw' | lia | lia | exact Hw | exact Htw].
  - destruct (small_matrix_height z Hz Hsmall) as (mh & Hh & Hmh & Hmh' & _).
    assert (Hty := tile_y_size_unfold z mh Hz ltac:(lia) Hmh' Hh).
    split; [eexists; exact Hty |]. split.
    + intros Hts. unfold pixel_y_size.
      rewrite Hty, (tile_height_valid tp z Hz).
      unfold validate_zoom, spec_tile_pixels. destruct (Z.ltb_spec z 0); [lia|].
      rewrite Hts, !Z.mul_0_l, !Z.mul_0_r, !Z.mul_0_l. reflexivity.
    + intros Hts Hmeta Hheight. pose proof (tile_height_valid tp z Hz) as Hth.
      set (th := spec_tile_pixels _ _ _ _) in Hth.
      assert (1 <= th <= 2 ^ 53) by (unfold th, spec_tile_pixels; nia).
      eexists.
      apply (pixel_y_size_unfold ROUND tp z mh th Hz); [lia | exact Hmh' | lia | lia | exact Hh | exact Hth].
Qed.

End ConstructedUnits.

Lemma inject_Z_nonzero (n : Z) : 1 <= n -> ~ (inject_Z n == 0)%Q.
Proof.
  intros H E. pose proof (inject_Z_pos n H) as Hpos.
  rewrite E in Hpos. exact (Qlt_irrefl _ Hpos).
Qed.

(** Square pixels stay square when both base dimensions are scaled by [t]
    and grouped by [m] without remainder. *)
Lemma conformal_scaled (xs ys : Q) (w h t m kw kh : Z) :
  1 <= w -> 1 <= h -> 1 <= t -> 1 <= m -> 1 <= kw -> 1 <= kh ->
  w * t = kw * m -> h * t = kh * m ->
  (xs / inject_Z w == ys / inject_Z h)%Q ->
  (xs / inject_Z kw == ys / inject_Z kh)%Q.
Proof.
  intros Hw Hh Ht Hm Hkw Hkh Ew Eh Hconf.
  pose proof (inject_Z_nonzero w Hw). pose proof (inject_Z_nonzero h Hh).
  pose proof (inject_Z_nonzero t Ht). pose proof (inject_Z_nonzero m Hm).
  pose proof (inject_Z_nonzero kw Hkw). pose proof (inject_Z_nonzero kh Hkh).
  assert (EW : (inject_Z w * inject_Z t == inject_Z kw * inject_Z m)%Q)
    by (rewrite <- !inject_Z_mult, Ew; reflexivity).
  assert (EH : (inject_Z h * inject_Z t == inject_Z kh * inject_Z m)%Q)
    by (rewrite <- !inject_Z_mult, Eh; reflexivity).
  assert (X : (xs / inject_Z kw == xs / inject_Z w * (inject_Z m / inject_Z t))%Q).
  { setoid_replace (xs / inject_Z w * (inject_Z m / inject_Z t))%Q
      with (xs * inject_Z m / (inject_Z w * inject_Z t))%Q by (field; auto).
    rewrite EW. field; auto. }
  assert (Y : (ys / inject_Z kh == ys / inject_Z h * (inject_Z m / inject_Z t))%Q).
  { setoid_replace (ys / inject_Z h * (inject_Z m / inject_Z t))%Q
      with (ys * inject_Z m / (inject_Z h * inject_Z t))%Q by (field; auto).
    rewrite EH. field; auto. }
  rewrite X, Y, Hconf. reflexivity.
Qed.

Section ConformalPixels.

Variable ROUND : Z.
Variable GridArg : Type.
Variable GridDefinition_new : GridArg -> result GridDefinition.
Variable grid : option GridArg.
Variables tile_size metatiling : Z.
Variable tp : TilePyramid.
Hypothesis constructed :
  TilePyramid_init ROUND GridDefinition_new grid tile_size metatiling = inr tp.
Hypothesis round_decimals : 0 <= ROUND.
Hypothesis width_finite : finite_difference (tp_right tp) (tp_left tp).
Hypothesis height_finite : finite_difference (tp_top tp) (tp_bottom tp).
Hypothesis square_pixels : conformal tp.
Hypothesis tile_size_positive : 1 <= tp_tile_size tp.
Hypothesis metatile_small : tp_tile_size tp * tp_metatiling tp <= 2 ^ 53.
Hypothesis width_positive : 1 <= shape_width (g_shape (tp_grid tp)).
Hypothesis height_positive : 1 <= shape_height (g_shape (tp_grid tp)).

(** X7. On a conformal grid with extents within the range of the doubles
    (x_size and y_size are no infinities), and with ROUND >= 0 (round does
    not raise), pixel_x_size(z) and pixel_y_size(z) are the same number at
    every zoom at which metatiling divides both scaled base dimensions,
    hence with metatiling 1 and at every zoom from 4 on, as long as the
    scaled base dimensions are below 2^53 and a metatile has at most 2^53
    pixels: the two quotients x_size / matrix_width and y_size /
    matrix_height are then the same number, and so is every double
    computed from them. *)
Theorem pixel_sizes_agree_when_divisible (z : Z) :
  0 <= z ->
  shape_width (g_shape (tp_grid tp)) * 2 ^ z < 2 ^ 53 ->
  shape_height (g_shape (tp_grid tp)) * 2 ^ z < 2 ^ 53 ->
  ((tp_metatiling tp | shape_width (g_shape (tp_grid tp)) * 2 ^ z) /\
   (tp_metatiling tp | shape_height (g_shape (tp_grid tp)) * 2 ^ z) \/
   tp_metatiling tp = 1 \/ 4 <= z) ->
  exists p,
    pixel_x_size ROUND tp (PyInt z) = inr p /\
    pixel_y_size ROUND tp (PyInt z) = inr p.
Proof.
  intros Hz Hsw Hsh Hdiv.
  pose proof round_decimals as _. pose proof width_finite as _.
  pose proof height_finite as _.
  pose proof (constructed_metatiling_cases _ _ _ _ _ _ _ constructed) as Hm.
  pose proof (constructed_metatiling_allowed _ _ _ _ _ _ _ constructed) as Hok.
  assert (Hpos : 0 < tp_metatiling tp) by lia.
  assert (H2 : 0 < 2 ^ z) by (apply Z.pow_pos_nonneg; lia).
  assert (Hboth : (tp_metatiling tp | shape_width (g_shape (tp_grid tp)) * 2 ^ z) /\
                  (tp_metatiling tp | shape_height (g_shape (tp_grid tp)) * 2 ^ z)).
  { destruct Hdiv as [H | [H | H]]; [exact H | |].
    - rewrite H. split; apply Z.divide_1_l.
    - split; apply Z.divide_mul_r; now apply metatiling_divides_pow2. }
  destruct Hboth as ((kw & Ekw) & (kh & Ekh)).
  assert (Hkw : 1 <= kw) by nia. assert (Hkh : 1 <= kh) by nia.
  assert (Hkw' : Z.abs kw <= 2 ^ 53) by nia.
  assert (Hkh' : Z.abs kh <= 2 ^ 53) by nia.
  assert (Hmw : matrix_width tp (PyInt z) = inr kw).
  { rewrite (matrix_width_valid tp Hok z Hz) 
      by (apply fits_double_small; [lia | lia | rewrite Z.abs_eq by lia; lia]).
    rewrite spec_matrix_size_exact; [| lia | lia | lia | now exists kw].
    rewrite Ekw, Z.div_mul by lia. reflexivity. }
  assert (Hmh : matrix_height tp (PyInt z) = inr kh).
  { rewrite (matrix_height_valid tp Hok z Hz) 
      by (apply fits_double_small; [lia | lia | rewrite Z.abs_eq by lia; lia]).
    rewrite spec_matrix_size_exact; [| lia | lia | lia | now exists kh].
    rewrite Ekh, Z.div_mul by lia. reflexivity. }
  assert (Htw : tile_width tp (PyInt z) = inr (tp_tile_size tp * tp_metatiling tp)).
  { rewrite (tile_width_valid tp z Hz). unfold spec_tile_pixels. f_equal. nia. }
  assert (Hth : tile_height tp (PyInt z) = inr (tp_tile_size tp * tp_metatiling tp)).
  { rewrite (tile_height_valid tp z Hz). unfold spec_tile_pixels. f_equal. nia. }
  set (tw := tp_tile_size tp * tp_metatiling tp) in *.
  assert (Htw0 : tw <> 0) by (unfold tw; nia).
  assert (Htw1 : Z.abs tw <= 2 ^ 53) by (unfold tw in *; nia).
  eexists. split.
  - exact (pixel_x_size_unfold ROUND tp z kw tw Hz ltac:(lia) Hkw' Htw0 Htw1 Hmw Htw).
  - rewrite (pixel_y_size_unfold ROUND tp z kh tw Hz ltac:(lia) Hkh' Htw0 Htw1 Hmh Hth).
    rewrite (nearest_double_comp (tp_y_size tp / inject_Z kh) (tp_x_size tp / inject_Z kw));
      [reflexivity|].
    symmetry.
    apply (conformal_scaled _ _ (shape_width (g_shape (tp_grid tp)))
             (shape_height (g_shape (tp_grid tp))) (2 ^ z) (tp_metatiling tp));
      try lia; exact square_pixels.
Qed.

End ConformalPixels.

(** ** Further properties of the queries *)

Lemma sweep_kind_dispatch (kind : string) :
  In kind sweep_kinds ->
  String.eqb kind "Point" = false /\ String.eqb kind "MultiPoint" = false /\
  existsb (String.eqb kind) sweep_kinds = true.
Proof.
  unfold sweep_kinds. cbn [In].
  intros [<- | [<- | [<- | [<- | [<- | []]]]]]; repeat split.
Qed.

Section MoreQueries.

Variable ROUND : Z.
Variable _global_tiles_from_bounds : TilePyramid -> pyval -> pyval -> generated Tile.
Variable _tiles_from_cleaned_bounds : TilePyramid -> pyval -> pyval -> generated Tile.
Variable _tile_from_xy : TilePyramid -> Q -> Q -> pyval -> string -> result Tile.
Variable clip_geometry_to_srs_bounds : Geometry -> TilePyramid -> Geometry.
Variable prepared_intersects_bbox : Geometry -> Tile -> bool.

Local Abbreviation with_sweeps f := (f _global_tiles_from_bounds _tiles_from_cleaned_bounds).
Local Abbreviation with_collaborators f :=
  (f _global_tiles_from_bounds _tiles_from_cleaned_bounds _tile_from_xy
     clip_geometry_to_srs_bounds prepared_intersects_bbox).

Lemma tile_from_xy_outside (tp : TilePyramid) (x y : Q) (zoom : pyval) (on_edge_use : string) :
  valid_zoom zoom -> outside tp x y ->
  tile_from_xy _tile_from_xy tp x y zoom on_edge_use = inl OutOfBounds.
Proof.
  intros Hzoom Hout. destruct (validate_zoom_valid _ Hzoom) as (z & _ & _ & Hv).
  unfold tile_from_xy. rewrite Hv. cbn [bind].
  apply outside_check in Hout. rewrite Hout. reflexivity.
Qed.

(** X8. Every method that takes a zoom validates it before anything else:
    with a zoom that is negative or no integer, the six sizing methods and
    tiles_from_bbox fail with InvalidZoom, and tiles_from_geom raises
    InvalidZoom (also for an empty geometry, which otherwise yields
    nothing). *)
Theorem every_query_validates_zoom_first (tp : TilePyramid) (geometry : Geometry)
    (zoom : pyval) :
  ~ valid_zoom zoom ->
  tile_x_size ROUND tp zoom = inl InvalidZoom /\
  tile_y_size ROUND tp zoom = inl InvalidZoom /\
  tile_width tp zoom = inl InvalidZoom /\
  tile_height tp zoom = inl InvalidZoom /\
  pixel_x_size ROUND tp zoom = inl InvalidZoom /\
  pixel_y_size ROUND tp zoom = inl InvalidZoom /\
  with_sweeps tiles_from_bbox tp geometry zoom = inl InvalidZoom /\
  with_collaborators tiles_from_geom tp geometry zoom = gen_raise InvalidZoom.
Proof.
  intros Hbad. apply validate_zoom_invalid in Hbad.
  unfold tile_x_size, tile_y_size, tile_width, tile_height, pixel_x_size, pixel_y_size,
    tiles_from_bbox, tiles_from_geom.
  rewrite Hbad. repeat split.
Qed.

(** X9. For a line, polygon, multi-part or collection geometry (non-empty,
    valid, valid zoom) tiles_from_geom yields exactly the tiles of
    tiles_from_bbox(geometry, zoom), i.e. of tiles_from_bounds(geometry.bounds,
    zoom), whose bbox intersects the clipped geometry, in the same order, and
    ends with the exception the bounds query ends with, if any. *)
Theorem tiles_from_geom_filters_bbox_tiles (tp : TilePyramid) (geometry : Geometry)
    (zoom : pyval) :
  valid_zoom zoom ->
  is_empty geometry = false ->
  is_valid geometry = true ->
  In (geom_type geometry) sweep_kinds ->
  with_sweeps tiles_from_bbox tp geometry zoom
  = inr (with_sweeps tiles_from_bounds tp (geom_bounds geometry) zoom) /\
  with_collaborators tiles_from_geom tp geometry zoom
  = mkGenerated
      (filter (prepared_intersects_bbox (clip_geometry_to_srs_bounds geometry tp))
         (yielded (with_sweeps tiles_from_bounds tp (geom_bounds geometry) zoom)))
      (raised (with_sweeps tiles_from_bounds tp (geom_bounds geometry) zoom)) /\
  (forall tile,
     In tile (yielded (with_collaborators tiles_from_geom tp geometry zoom)) <->
     In tile (yielded (with_sweeps tiles_from_bounds tp (geom_bounds geometry) zoom)) /\
     prepared_intersects_bbox (clip_geometry_to_srs_bounds geometry tp) tile = true).
Proof.
  intros Hzoom Hne Hval Hkind.
  destruct (validate_zoom_valid _ Hzoom) as (z & _ & _ & Hv).
  destruct (sweep_kind_dispatch _ Hkind) as (Hpoint & Hmulti & Hsweep).
  assert (Hbbox : with_sweeps tiles_from_bbox tp geometry zoom
                  = inr (with_sweeps tiles_from_bounds tp (geom_bounds geometry) zoom)).
  { unfold tiles_from_bbox. rewrite Hv. reflexivity. }
  assert (Hgeom : with_collaborators tiles_from_geom tp geometry zoom
                  = mkGenerated
                      (filter (prepared_intersects_bbox (clip_geometry_to_srs_bounds geometry tp))
                         (yielded (with_sweeps tiles_from_bounds tp (geom_bounds geometry) zoom)))
                      (raised (with_sweeps tiles_from_bounds tp (geom_bounds geometry) zoom))).
  { unfold tiles_from_geom. rewrite Hv, Hne, Hval, Hpoint, Hmulti, Hsweep.
    cbn [gen_bind negb]. cbv zeta. rewrite Hbbox. reflexivity. }
  split; [exact Hbbox|]. split; [exact Hgeom|].
  intros tile. rewrite Hgeom. cbn [yielded]. apply filter_In.
Qed.

(** X10. A point outside the bounds ends the iteration: for a Point
    nothing is yielded before OutOfBounds; for a MultiPoint the tiles of the
    points before the first outside point are yielded, then OutOfBounds is
    raised, and the points after it are never resolved. *)
Theorem tiles_from_geom_stops_at_outside_point (tp : TilePyramid) (geometry : Geometry)
    (zoom : pyval) :
  valid_zoom zoom ->
  is_empty geometry = false ->
  is_valid geometry = true ->
  (geom_type geometry = "Point" ->
   outside tp (pt_x (geom_xy geometry)) (pt_y (geom_xy geometry)) ->
   with_collaborators tiles_from_geom tp geometry zoom = gen_raise OutOfBounds) /\
  (geom_type geometry = "MultiPoint" ->
   forall (before : list Point) (point : Point) (after : list Point) (tiles : list Tile),
     geom_points geometry = (before ++ point :: after)%list ->
     Forall2 (fun p tile => tile_from_xy _tile_from_xy tp (pt_x p) (pt_y p) zoom "rb" = inr tile)
       before tiles ->
     outside tp (pt_x point) (pt_y point) ->
     with_collaborators tiles_from_geom tp geometry zoom
     = mkGenerated tiles (Some OutOfBounds)).
Proof.
  intros Hzoom Hne Hval.
  destruct (validate_zoom_valid _ Hzoom) as (z & _ & _ & Hv).
  unfold tiles_from_geom. rewrite Hv, Hne, Hval. cbn [gen_bind negb]. split.
  - intros -> Hout. cbn [String.eqb Ascii.eqb Bool.eqb].
    rewrite (tile_from_xy_outside tp _ _ zoom "rb" Hzoom Hout). reflexivity.
  - intros -> before point after tiles Hpoints Hbefore Hout.
    cbn [String.eqb Ascii.eqb Bool.eqb]. rewrite Hpoints.
    apply yield_each_raise; [exact Hbefore|].
    exact (tile_from_xy_outside tp _ _ zoom "rb" Hzoom Hout).
Qed.

End MoreQueries.

(** ** Further properties of construction, dictionaries and equality *)

Section MoreConstruction.

Variable ROUND : Z.
Variable GridArg : Type.
Variable GridDefinition_new : GridArg -> result GridDefinition.

(** X11. from_dict fills absent keys with the defaults of the constructor:
    without a grid it fails with ConstructionError whatever the other keys
    are; with only a grid it passes the grid constructor's exception on
    when that constructor raises, and when it returns a grid, from_dict
    returns the pyramid of that grid with tile_size 256, metatiling 1 and
    metatile_size 256. *)
Theorem from_dict_absent_keys :
  (forall metatiling tile_size,
     from_dict ROUND GridDefinition_new (mkConfig None metatiling tile_size)
     = inl ConstructionError) /\
  (forall g e,
     GridDefinition_new g = inl e ->
     from_dict ROUND GridDefinition_new (mkConfig (Some g) None None) = inl e) /\
  (forall g gd,
     GridDefinition_new g = inr gd ->
     exists tp,
       from_dict ROUND GridDefinition_new (mkConfig (Some g) None None) = inr tp /\
       tp_grid tp = gd /\
       tp_tile_size tp = 256 /\ tp_metatiling tp = 1 /\ tp_metatile_size tp = 256).
Proof.
  split; [|split].
  - intros metatiling tile_size. reflexivity.
  - intros g e He. unfold from_dict, TilePyramid_init. cbn. rewrite He. reflexivity.
  - intros g gd Hgd. unfold from_dict, TilePyramid_init. cbn. rewrite Hgd.
    cbn [bind ret]. eexists. split; [reflexivity |]. cbn. auto.
Qed.

(** X12. With ROUND >= 0 and an extent right - left within the range of
    the doubles, x_size differs from right - left by at most a relative
    2^-51 plus one unit of the ROUND-th decimal and 2^-1073: the error of
    the float subtraction and of the rounding; and x_size is exactly
    right - left when that is a whole number of at most 2^53 in magnitude.
    Likewise for y_size and top - bottom. *)
Theorem extents_rounded (grid : option GridArg) (tile_size metatiling : Z)
    (tp : TilePyramid) :
  TilePyramid_init ROUND GridDefinition_new grid tile_size metatiling = inr tp ->
  0 <= ROUND ->
  (finite_difference (tp_right tp) (tp_left tp) ->
   (Qabs (tp_x_size tp - (tp_right tp - tp_left tp))
    <= Qabs (tp_right tp - tp_left tp) * pow2 (-51)
       + / Qpower 10 ROUND + pow2 (-1073))%Q) /\
  (finite_difference (tp_top tp) (tp_bottom tp) ->
   (Qabs (tp_y_size tp - (tp_top tp - tp_bottom tp))
    <= Qabs (tp_top tp - tp_bottom tp) * pow2 (-51)
       + / Qpower 10 ROUND + pow2 (-1073))%Q) /\
  (forall n, Z.abs n <= 2 ^ 53 ->
     (tp_right tp - tp_left tp == inject_Z n)%Q -> (tp_x_size tp == inject_Z n)%Q) /\
  (forall n, Z.abs n <= 2 ^ 53 ->
     (tp_top tp - tp_bottom tp == inject_Z n)%Q -> (tp_y_size tp == inject_Z n)%Q).
Proof.
  intros H HR. destruct (init_inv _ _ _ _ _ _ _ H) as (ga & g & _ & _ & _ & ->).
  cbn [tp_left tp_right tp_top tp_bottom tp_x_size tp_y_size].
  assert (Hbound : forall a b,
            (Qabs (py_round (float_sub a b) ROUND - (a - b))
             <= Qabs (a - b) * pow2 (-51) + / Qpower 10 ROUND + pow2 (-1073))%Q).
  { intros a b. unfold float_sub.
    assert (HB : (- Qabs (a - b) <= a - b <= Qabs (a - b))%Q)
      by (apply Qabs_Qle_condition; apply Qle_refl).
    destruct (rounded_double_bound (a - b) (Qabs (a - b)) ROUND HR HB) as [Hlo Hhi].
    apply Qabs_Qle_condition.
    set (t := py_round (nearest_double (a - b)) ROUND) in *. clearbody t.
    set (e := (Qabs (a - b) * pow2 (-51) + / Qpower 10 ROUND + pow2 (-1073))%Q) in *.
    clearbody e. split; lra. }
  split; [intros _; apply Hbound |]. split; [intros _; apply Hbound |].
  split; intros n Hn E; rewrite (float_sub_integer _ _ n Hn E);
    apply py_round_integer; (assumption || reflexivity).
Qed.

End MoreConstruction.

Section MoreEquality.

Variable grid_eq : GridDefinition -> GridDefinition -> bool.
Hypothesis grid_eq_sym : forall g1 g2, grid_eq g1 g2 = grid_eq g2 g1.
Hypothesis grid_eq_trans :
  forall g1 g2 g3, grid_eq g1 g2 = true -> grid_eq g2 g3 = true -> grid_eq g1 g3 = true.

(** X13. Compared with an object that is no TilePyramid, == is False and !=
    is True; != is always the negation of ==; and == between pyramids is
    symmetric and transitive whenever the grid's own == is. *)
Theorem eq_symmetric_transitive :
  (forall a, TilePyramid_eq grid_eq a ObjOther = false /\
             TilePyramid_ne grid_eq a ObjOther = true) /\
  (forall a other, TilePyramid_ne grid_eq a other = negb (TilePyramid_eq grid_eq a other)) /\
  (forall a b, TilePyramid_eq grid_eq a (ObjTilePyramid b)
               = TilePyramid_eq grid_eq b (ObjTilePyramid a)) /\
  (forall a b c,
     TilePyramid_eq grid_eq a (ObjTilePyramid b) = true ->
     TilePyramid_eq grid_eq b (ObjTilePyramid c) = true ->
     TilePyramid_eq grid_eq a (ObjTilePyramid c) = true).
Proof.
  split; [|split; [|split]].
  - intros a. split; reflexivity.
  - intros a other. reflexivity.
  - intros a b. cbn. rewrite (grid_eq_sym (tp_grid a) (tp_grid b)).
    now rewrite (Z.eqb_sym (tp_tile_size a)), (Z.eqb_sym (tp_metatiling a)).
  - intros a b c. cbn. rewrite !andb_true_iff, !Z.eqb_eq.
    intros ((Hab & -> ) & ->) ((Hbc & ->) & ->).
    repeat split. exact (grid_eq_trans _ _ _ Hab Hbc).
Qed.

End MoreEquality.

(** ** The further properties at concrete inputs *)

Lemma matrix_size_grows_with_zoom_witness :
  exists tp w w',
    irregular_pyramid 20 2 = inr tp /\
    matrix_width tp (PyInt 0) = inr w /\
    matrix_width tp (PyInt (0 + 1)) = inr w' /\
    w <= w' <= 2 * w.
Proof.
  eexists.
  destruct (matrix_size_grows_with_zoom 20 _ finished_grid (Some irregular_grid) 256 2 _
              eq_refl 0 ltac:(lia)) as (Hw & _).
  destruct (Hw ltac:(apply fits_double_small; cbn; lia)) as (w & w' & H).
  exists w, w'. split; [reflexivity | exact H].
Defined.

Lemma matrix_size_exact_when_divisible_witness :
  exists tp,
    irregular_pyramid 20 2 = inr tp /\
    matrix_width tp (PyInt 1) = inr 315 /\
    matrix_height tp (PyInt 1) = inr 161.
Proof.
  eexists. split; [reflexivity|].
  destruct (matrix_size_exact_when_divisible 20 _ finished_grid (Some irregular_grid) 256 2 _
              eq_refl 1 ltac:(lia)) as (Hw & Hh & _).
  split.
  - apply Hw; [cbn; lia | apply fits_double_small; cbn; lia | exists 315; reflexivity].
  - apply Hh; [cbn; lia | apply fits_double_small; cbn; lia | exists 161; reflexivity].
Defined.

Lemma metatile_row_covers_matrix_witness :
  exists tp mw tw,
    irregular_pyramid 20 2 = inr tp /\
    matrix_width tp (PyInt 0) = inr mw /\
    tile_width tp (PyInt 0) = inr tw /\
    80640 <= tw * mw /\ tw * mw < 80640 + 512.
Proof.
  eexists.
  destruct (metatile_row_covers_matrix 20 _ finished_grid (Some irregular_grid) 256 2 _
              eq_refl ltac:(cbn; lia) 0 ltac:(lia)) as (Hrow & _).
  destruct (Hrow ltac:(cbn; lia) ltac:(apply fits_double_small; cbn; lia))
    as (mw & tw & Hmw & Htw & Hlo & Hhi).
  exists mw, tw. split; [reflexivity|]. split; [exact Hmw|]. split; [exact Htw|].
  split; [exact Hlo | exact Hhi].
Defined.

Lemma tile_width_capped_only_in_single_column_witness :
  exists tp,
    TilePyramid_init 20 finished_grid (Some unit_grid) 256 4 = inr tp /\
    matrix_width tp (PyInt 1) = inr 1 /\
    tile_width tp (PyInt 1) = inr 512 /\
    tile_width tp (PyInt 2) = inr 1024.
Proof.
  eexists. split; [reflexivity|].
  destruct (tile_width_capped_only_in_single_column 20 _ finished_grid (Some unit_grid)
              256 4 _ eq_refl ltac:(cbn; lia) 1 ltac:(lia)) as (H1 & _).
  destruct (H1 ltac:(cbn; lia) ltac:(apply fits_double_small; cbn; lia))
    as (mw & tw & Hmw & Htw & Hcap & _).
  destruct (tile_width_capped_only_in_single_column 20 _ finished_grid (Some unit_grid)
              256 4 _ eq_refl ltac:(cbn; lia) 2 ltac:(lia)) as (H2 & _).
  destruct (H2 ltac:(cbn; lia) ltac:(apply fits_double_small; cbn; lia))
    as (mw2 & tw2 & _ & Htw2 & _ & _ & Hwide).
  assert (E1 : tw = 512) by (cbn in Htw; injection Htw as <-; reflexivity).
  destruct (Hcap ltac:(rewrite E1; cbn; lia)) as (Hone & _).
  rewrite Hmw, Htw, Htw2, Hone, E1, (Hwide ltac:(cbn; lia)).
  repeat split.
Defined.

Lemma sizes_in_map_units_return_witness :
  (exists tp,
     TilePyramid_init 20 finished_grid (Some unit_grid) 0 1 = inr tp /\
     pixel_x_size 20 tp (PyInt 0) = inl ZeroDivisionError /\
     exists tx, tile_x_size 20 tp (PyInt 0) = inr tx) /\
  (exists px, pixel_x_size 20 unit_pyramid (PyInt 0) = inr px).
Proof.
  split.
  - eexists. split; [reflexivity|].
    destruct (sizes_in_map_units_return 20 _ finished_grid (Some unit_grid) 0 1 _
                eq_refl 0 ltac:(lia) ltac:(lia)) as (Hx & _).
    destruct (Hx ltac:(cbn; lia)) as ((tx & Htx) & Hzero & _).
    split; [exact (Hzero eq_refl) | exists tx; exact Htx].
  - destruct (sizes_in_map_units_return 20 _ finished_grid (Some unit_grid) 256 1
                unit_pyramid eq_refl 0 ltac:(lia) ltac:(lia)) as (Hx & _).
    destruct (Hx ltac:(cbn; lia)) as (_ & _ & Hpx).
    apply Hpx; cbn; lia.
Defined.

Lemma pixel_sizes_agree_when_divisible_witness :
  exists tp p,
    irregular_pyramid 20 2 = inr tp /\
    pixel_x_size 20 tp (PyInt 1) = inr p /\
    pixel_y_size 20 tp (PyInt 1) = inr p.
Proof.
  eexists.
  destruct (pixel_sizes_agree_when_divisible 20 _ finished_grid (Some irregular_grid) 256 2 _
              eq_refl ltac:(lia)
              ltac:(eexists; vm_compute; reflexivity)
              ltac:(eexists; vm_compute; reflexivity)
              (irregular_conformal 20 ltac:(lia) _ eq_refl)
              ltac:(cbn; lia) ltac:(cbn; lia) ltac:(cbn; lia) ltac:(cbn; lia) 1
              ltac:(lia) ltac:(cbn; lia) ltac:(cbn; lia))
    as (p & Hx & Hy).
  - left. split; [exists 315 | exists 161]; reflexivity.
  - exists p. split; [reflexivity|]. split; [exact Hx | exact Hy].
Defined.

Lemma every_query_validates_zoom_first_witness :
  pixel_x_size 20 unit_pyramid (PyStr "3") = inl InvalidZoom /\
  tile_width unit_pyramid (PyInt (-1)) = inl InvalidZoom /\
  tiles_from_geom single_tile_sweep single_tile_sweep single_tile unclipped intersects_all
    unit_pyramid (geometry_of "Polygon" []) (PyFloat 1)
  = gen_raise InvalidZoom.
Proof.
  split; [|split].
  - apply (every_query_validates_zoom_first 20 single_tile_sweep single_tile_sweep single_tile
             unclipped intersects_all unit_pyramid square (PyStr "3")).
    intros (z & E & _). discriminate E.
  - apply (every_query_validates_zoom_first 20 single_tile_sweep single_tile_sweep single_tile
             unclipped intersects_all unit_pyramid square (PyInt (-1))).
    intros (z & E & Hz). injection E as <-. lia.
  - apply (every_query_validates_zoom_first 20 single_tile_sweep single_tile_sweep single_tile
             unclipped intersects_all unit_pyramid (geometry_of "Polygon" []) (PyFloat 1)).
    intros (z & E & _). discriminate E.
Defined.

Lemma tiles_from_geom_filters_bbox_tiles_witness :
  tiles_from_geom single_tile_sweep single_tile_sweep single_tile unclipped intersects_all
    unit_pyramid square (PyInt 0)
  = mkGenerated [mkTile unit_pyramid 0 0 0] None.
Proof.
  destruct (tiles_from_geom_filters_bbox_tiles single_tile_sweep single_tile_sweep single_tile
              unclipped intersects_all unit_pyramid square (PyInt 0)) as (_ & Hgeom & _).
  - exists 0. split; [reflexivity | lia].
  - reflexivity.
  - reflexivity.
  - cbn. auto.
  - rewrite Hgeom. reflexivity.
Defined.

Lemma tiles_from_geom_stops_at_outside_point_witness :
  tiles_from_geom single_tile_sweep single_tile_sweep single_tile unclipped intersects_all
    unit_pyramid (geometry_of "MultiPoint" [mkPoint 5 5; mkPoint 11 5; mkPoint 2 2]) (PyInt 0)
  = mkGenerated [mkTile unit_pyramid 0 0 0] (Some OutOfBounds) /\
  tiles_from_geom single_tile_sweep single_tile_sweep single_tile unclipped intersects_all
    unit_pyramid (geometry_of "Point" [mkPoint 5 (-1)]) (PyInt 0)
  = gen_raise OutOfBounds.
Proof.
  assert (Hzoom : valid_zoom (PyInt 0)) by (exists 0; split; [reflexivity | lia]).
  split.
  - destruct (tiles_from_geom_stops_at_outside_point single_tile_sweep single_tile_sweep
                single_tile unclipped intersects_all unit_pyramid
                (geometry_of "MultiPoint" [mkPoint 5 5; mkPoint 11 5; mkPoint 2 2]) (PyInt 0)
                Hzoom eq_refl eq_refl) as (_ & Hmulti).
    apply (Hmulti eq_refl [mkPoint 5 5] (mkPoint 11 5) [mkPoint 2 2]).
    + reflexivity.
    + repeat constructor.
    + unfold outside. cbn. right. left. reflexivity.
  - destruct (tiles_from_geom_stops_at_outside_point single_tile_sweep single_tile_sweep
                single_tile unclipped intersects_all unit_pyramid
                (geometry_of "Point" [mkPoint 5 (-1)]) (PyInt 0)
                Hzoom eq_refl eq_refl) as (Hpoint & _).
    apply (Hpoint eq_refl). unfold outside. cbn. right. right. left. reflexivity.
Defined.

Lemma from_dict_absent_keys_witness :
  from_dict 20 finished_grid (mkConfig None (Some 2) (Some 512)) = inl ConstructionError /\
  from_dict 20 finished_grid (mkConfig (Some unit_grid) None None) = inr unit_pyramid.
Proof.
  destruct (from_dict_absent_keys 20 GridDefinition finished_grid) as (Hnone & _ & Hgrid).
  split; [apply Hnone|].
  destruct (Hgrid unit_grid unit_grid eq_refl) as (tp & Htp & _).
  rewrite Htp. f_equal. injection Htp as <-. reflexivity.
Defined.

Lemma extents_rounded_witness :
  (tp_x_size unit_pyramid == inject_Z 10)%Q /\
  (Qabs (tp_y_size unit_pyramid - (10 - 0))
   <= Qabs (10 - 0) * pow2 (-51) + / Qpower 10 20 + pow2 (-1073))%Q.
Proof.
  destruct (extents_rounded 20 GridDefinition finished_grid (Some unit_grid) 256 1
              unit_pyramid eq_refl ltac:(lia)) as (_ & Hy & Hx & _).
  split.
  - apply Hx; (lia || reflexivity).
  - apply Hy. eexists. vm_compute. reflexivity.
Defined.

Lemma tile_sizes_span_the_grid_witness :
  exists tp mw tx,
    irregular_pyramid 20 2 = inr tp /\
    matrix_width tp (PyInt 0) = inr mw /\
    tile_x_size 20 tp (PyInt 0) = inr tx /\
    (Qabs (tx * inject_Z mw - tp_x_size tp)
     <= Qabs (tp_x_size tp) * pow2 (-51)
        + inject_Z mw * (/ Qpower 10 20 + pow2 (-1073)))%Q.
Proof.
  eexists.
  destruct (tile_sizes_span_the_grid 20 _ finished_grid (Some irregular_grid) 256 2 _
              eq_refl 0 ltac:(lia) ltac:(lia)) as (Hx & _).
  destruct (Hx ltac:(cbn; lia) ltac:(eexists; vm_compute; reflexivity))
    as (mw & tx & Hmw & Htx & Hspan).
  exists mw, tx. split; [reflexivity|]. split; [exact Hmw|]. split; [exact Htx|].
  exact Hspan.
Defined.

Lemma same_bounds_iff (a b : Bounds) :
  same_bounds a b = true <->
  (b_left a == b_left b /\ b_bottom a == b_bottom b /\
   b_right a == b_right b /\ b_top a == b_top b)%Q.
Proof.
  unfold same_bounds. rewrite !andb_true_iff, !Qeq_bool_iff. tauto.
Qed.

Lemma same_grid_iff (a b : GridDefinition) :
  same_grid a b = true <->
  g_crs a = g_crs b /\ same_bounds (g_bounds a) (g_bounds b) = true /\
  g_shape a = g_shape b /\ g_is_global a = g_is_global b /\ g_type a = g_type b.
Proof.
  unfold same_grid.
  rewrite !andb_true_iff, !String.eqb_eq, !Z.eqb_eq, Bool.eqb_true_iff.
  destruct (g_shape a) as [ha wa], (g_shape b) as [hb wb]. cbn.
  split.
  - intros (((((? & ?) & ?) & ?) & ?) & ?). repeat split; congruence.
  - intros (? & ? & E & ? & ?). injection E as -> ->. repeat split; assumption.
Qed.

Lemma same_grid_sym (a b : GridDefinition) : same_grid a b = same_grid b a.
Proof.
  assert (H : forall x y, same_grid x y = true -> same_grid y x = true).
  { intros x y Hxy. apply same_grid_iff in Hxy. apply same_grid_iff.
    destruct Hxy as (? & Hb & ? & ? & ?). repeat split; try congruence.
    apply same_bounds_iff in Hb. apply same_bounds_iff.
    destruct Hb as (? & ? & ? & ?). repeat split; symmetry; assumption. }
  destruct (same_grid a b) eqn:E1, (same_grid b a) eqn:E2; try reflexivity.
  - apply H in E1. congruence.
  - apply H in E2. congruence.
Qed.

Lemma same_grid_trans (a b c : GridDefinition) :
  same_grid a b = true -> same_grid b c = true -> same_grid a c = true.
Proof.
  rewrite !same_grid_iff, !same_bounds_iff.
  intros (? & (E1 & E2 & E3 & E4) & ? & ? & ?) (? & (F1 & F2 & F3 & F4) & ? & ? & ?).
  repeat split; try congruence.
  - now rewrite E1. - now rewrite E2. - now rewrite E3. - now rewrite E4.
Qed.

Lemma eq_symmetric_transitive_witness :
  TilePyramid_eq same_grid unit_pyramid ObjOther = false /\
  (forall a b, TilePyramid_eq same_grid a (ObjTilePyramid b)
               = TilePyramid_eq same_grid b (ObjTilePyramid a)).
Proof.
  destruct (eq_symmetric_transitive same_grid same_grid_sym same_grid_trans)
    as (Hother & _ & Hsym & _).
  split; [exact (proj1 (Hother unit_pyramid)) | exact Hsym].
Defined.

(** ** Construction and the grid constructor *)

Section GridConstructor.

Variable ROUND : Z.
Variable GridArg : Type.
Variable GridDefinition_new : GridArg -> result GridDefinition.
Variable grid_to_dict : GridDefinition -> GridArg.

(** X14. Given a grid and an allowed metatiling, construction succeeds exactly
    when the GridDefinition constructor does, and otherwise raises that
    constructor's exception; the pyramid takes its grid, bounds, crs and
    is_global from the constructed grid, and tile_size is stored unchecked
    (zero and negative values included). *)
Theorem init_follows_grid_constructor (grid_arg : GridArg) (tile_size metatiling : Z) :
  In metatiling [1; 2; 4; 8; 16] ->
  (forall e, GridDefinition_new grid_arg = inl e ->
     TilePyramid_init ROUND GridDefinition_new (Some grid_arg) tile_size metatiling = inl e) /\
  (forall g, GridDefinition_new grid_arg = inr g ->
     exists tp,
       TilePyramid_init ROUND GridDefinition_new (Some grid_arg) tile_size metatiling = inr tp /\
       tp_grid tp = g /\ tp_bounds tp = g_bounds g /\
       tp_left tp = b_left (g_bounds g) /\ tp_bottom tp = b_bottom (g_bounds g) /\
       tp_right tp = b_right (g_bounds g) /\ tp_top tp = b_top (g_bounds g) /\
       tp_crs tp = g_crs g /\ tp_is_global tp = g_is_global g /\
       tp_tile_size tp = tile_size /\ tp_metatiling tp = metatiling).
Proof.
  intros Hm.
  assert (Hallowed : metatiling_allowed metatiling = true).
  { apply metatiling_allowed_iff. cbn in Hm. intuition. }
  unfold TilePyramid_init. rewrite Hallowed. cbn [negb]. split.
  - intros e ->. reflexivity.
  - intros g ->. cbn [bind ret]. eexists. split; [reflexivity|]. cbn. repeat split.
Qed.

(** X15. Rebuilding a constructed pyramid from its own dictionary can only
    fail in the GridDefinition constructor: its exception is passed on, and
    when it returns a grid the rebuilt pyramid has that grid and the
    tile_size, metatiling and metatile_size of the original. *)
Theorem roundtrip_fails_only_in_grid_constructor (grid : option GridArg)
    (tile_size metatiling : Z) (tp : TilePyramid) :
  TilePyramid_init ROUND GridDefinition_new grid tile_size metatiling = inr tp ->
  (forall e, GridDefinition_new (grid_to_dict (tp_grid tp)) = inl e ->
     from_dict ROUND GridDefinition_new (to_dict grid_to_dict tp) = inl e) /\
  (forall g, GridDefinition_new (grid_to_dict (tp_grid tp)) = inr g ->
     exists tp',
       from_dict ROUND GridDefinition_new (to_dict grid_to_dict tp) = inr tp' /\
       tp_grid tp' = g /\
       tp_tile_size tp' = tp_tile_size tp /\
       tp_metatiling tp' = tp_metatiling tp /\
       tp_metatile_size tp' = tp_metatile_size tp).
Proof.
  intros H. rewrite (from_dict_to_dict _ _ _ _ _ _ _ _ H).
  destruct (init_inv _ _ _ _ _ _ _ H) as (ga & g0 & _ & _ & Hm & ->).
  unfold TilePyramid_init. rewrite Hm. cbn [negb tp_grid]. split.
  - intros e ->. reflexivity.
  - intros g ->. cbn [bind ret]. eexists. split; [reflexivity|]. cbn. repeat split.
Qed.

(** X16. The matrix of a constructed pyramid is a single column exactly
    while the scaled base width does not exceed metatiling (zero and
    negative widths included), and a single row likewise, as long as the
    float quotient is exact. *)
Theorem matrix_single_cell (grid : option GridArg) (tile_size metatiling : Z)
    (tp : TilePyramid) (z : Z) :
  TilePyramid_init ROUND GridDefinition_new grid tile_size metatiling = inr tp ->
  0 <= z ->
  (fits_double (shape_width (g_shape (tp_grid tp))) z (tp_metatiling tp) ->
   (matrix_width tp (PyInt z) = inr 1 <->
    shape_width (g_shape (tp_grid tp)) * 2 ^ z <= tp_metatiling tp)) /\
  (fits_double (shape_height (g_shape (tp_grid tp))) z (tp_metatiling tp) ->
   (matrix_height tp (PyInt z) = inr 1 <->
    shape_height (g_shape (tp_grid tp)) * 2 ^ z <= tp_metatiling tp)).
Proof.
  intros H Hz.
  pose proof (constructed_metatiling_pos _ _ _ _ _ _ _ H) as Hpos.
  pose proof (constructed_metatiling_allowed _ _ _ _ _ _ _ H) as Hok.
  split; intros Hfit.
  - rewrite (matrix_width_valid tp Hok z Hz Hfit).
    destruct (spec_matrix_size_ceiling (shape_width (g_shape (tp_grid tp))) z
                (tp_metatiling tp) Hpos) as (c & Hc & _ & ->).
    split.
    + intros E. injection E as E. nia.
    + intros Hle. f_equal. nia.
  - rewrite (matrix_height_valid tp Hok z Hz Hfit).
    destruct (spec_matrix_size_ceiling (shape_height (g_shape (tp_grid tp))) z
                (tp_metatiling tp) Hpos) as (c & Hc & _ & ->).
    split.
    + intros E. injection E as E. nia.
    + intros Hle. f_equal. nia.
Qed.

End GridConstructor.

Lemma init_follows_grid_constructor_witness :
  exists tp,
    TilePyramid_init 20 finished_grid (Some unit_grid) (-5) 8 = inr tp /\
    tp_grid tp = unit_grid /\ tp_tile_size tp = -5 /\ tp_is_global tp = false.
Proof.
  destruct (init_follows_grid_constructor 20 GridDefinition finished_grid unit_grid (-5) 8)
    as (_ & Hok).
  - cbn. auto.
  - destruct (Hok unit_grid eq_refl) as (tp & Hinit & Hgrid & _ & _ & _ & _ & _ & _ & Hglobal & Hts & _).
    exists tp. split; [exact Hinit|]. split; [exact Hgrid|]. split; [exact Hts|].
    rewrite Hglobal. reflexivity.
Defined.

Lemma roundtrip_fails_only_in_grid_constructor_witness :
  exists tp',
    from_dict 20 finished_grid (to_dict grid_fields unit_pyramid) = inr tp' /\
    tp_tile_size tp' = 256 /\ tp_metatiling tp' = 1.
Proof.
  destruct (roundtrip_fails_only_in_grid_constructor 20 GridDefinition finished_grid
              grid_fields (Some unit_grid) 256 1 unit_pyramid eq_refl) as (_ & Hok).
  destruct (Hok unit_grid eq_refl) as (tp' & Hfrom & _ & Hts & Hm & _).
  exists tp'. split; [exact Hfrom|]. split; [exact Hts | exact Hm].
Defined.

Lemma matrix_single_cell_witness :
  exists tp,
    TilePyramid_init 20 finished_grid (Some unit_grid) 256 16 = inr tp /\
    matrix_width tp (PyInt 4) = inr 1 /\
    matrix_height tp (PyInt 0) = inr 1.
Proof.
  eexists. split; [reflexivity|].
  split.
  - apply (proj1 (matrix_single_cell 20 GridDefinition finished_grid (Some unit_grid) 256 16
                    _ 4 eq_refl ltac:(lia))).
    + apply fits_double_small; cbn; lia.
    + cbn. lia.
  - apply (proj2 (matrix_single_cell 20 GridDefinition finished_grid (Some unit_grid) 256 16
                    _ 0 eq_refl ltac:(lia))).
    + apply fits_double_small; cbn; lia.
    + cbn. lia.
Defined.
